(** * The JavaScript evaluation service: [safeEval] and [POST] of
    [src/app/api/eval/route.ts], and [executeCode] of
    [src/components/javascript-console.tsx].

    The host code (the filter, the capability context, the wrapper that
    [new Function] builds around the snippet, the handler [POST], the
    console component) is embedded as Rocq functions.  The snippet the
    host runs is a program of a small fragment of JavaScript, given by
    its abstract syntax and run by a fuel-indexed interpreter over an
    explicit heap, so that aliasing between the caller's objects, the
    context bindings and the wrapper's locals is visible.

    What the model covers:
    - numbers are integers ([Z]), standing for the doubles that hold
      them exactly: a JSON value is taken as [request.json()] yields
      it, and a sum is followed up to [2^53]; strings are made of
      characters below 128, each one code unit;
    - an object keeps its properties in the order they were added;
      [JSON.stringify] writes those named by an array index first;
    - an array can be given properties of its own; of the methods of
      arrays [push] and [pop] are followed, and of the other built-in
      functions [String] on a string;
    - [JSON.stringify] calls a [toJSON] that is a function; it is
      followed where the call changes nothing ([String], and [pop] on
      an empty array), and the built-in prototypes are taken as the
      engine ships them;
    - the text of a snippet is a statement list by itself, so that the
      wrapper's template parses with the snippet inside the inner
      function;
    - the engine raises its stack [RangeError] when the calls of
      function values nest deeper than the host's [stack_limit]; the
      built-in calls the host code makes ([push], [Date.now]) do not
      count;
    - whatever else a snippet may do has the outcome [Unmodelled]:
      nothing is proved about it;
    - running out of fuel is the outcome [Diverged]: a run that is
      [Diverged] for every fuel never returns. *)

From Stdlib Require Import ZArith String Ascii List Lia Bool DecimalString.
From stdpp Require Import base list.
Import ListNotations.
Set Warnings "-register-all".
Local Open Scope string_scope.
Local Open Scope Z_scope.

(** ** Strings *)

Module Str.

(** [code.includes(keyword)]: [sub] occurs somewhere in [s]. *)
Fixpoint includes (s sub : string) : bool :=
  String.prefix sub s ||
  match s with
  | EmptyString => false
  | String _ rest => includes rest sub
  end.

(** The white space [String.prototype.trim] removes, among the
    characters below 128: TAB, LF, VT, FF, CR and SPACE. *)
Definition is_space (c : ascii) : bool :=
  let n := nat_of_ascii c in
  ((9 <=? n)%nat && (n <=? 13)%nat) || (n =? 32)%nat.

Fixpoint trimStart (s : string) : string :=
  match s with
  | String c rest => if is_space c then trimStart rest else s
  | EmptyString => EmptyString
  end.

(** [trim s] is empty exactly when [trimStart s] is: the console only
    tests [!code.trim()]. *)
Definition trim_is_empty (s : string) : bool :=
  match trimStart s with EmptyString => true | _ => false end.

(** [s.length], every character of the model being one code unit. *)
Definition len (s : string) : Z := Z.of_nat (String.length s).

End Str.

(** ** JSON values: what [request.json()] yields and what
    [NextResponse.json] sends.  The fields of an object are kept in the
    order the object lists them; a key occurs once. *)

Inductive json : Type :=
| JNull
| JBool (b : bool)
| JNum (n : Z)
| JStr (s : string)
| JArr (items : list json)
| JObj (fields : list (string * json)).

(** Lookup in an ordered key/value list, used for JSON objects, heap
    objects and scope frames alike. *)
Fixpoint assoc {A : Type} (k : string) (l : list (string * A)) : option A :=
  match l with
  | [] => None
  | (k', a) :: rest => if String.eqb k k' then Some a else assoc k rest
  end.

(** [obj.k = a]: an existing key keeps its place, a new one goes last. *)
Fixpoint assoc_set {A : Type} (k : string) (a : A) (l : list (string * A))
  : list (string * A) :=
  match l with
  | [] => [(k, a)]
  | (k', a') :: rest =>
      if String.eqb k k' then (k, a) :: rest else (k', a') :: assoc_set k a rest
  end.

(** [j.k] for a value [j] parsed from JSON and a key [k] no prototype
    defines ([code], [context], [console], [success], [result],
    [timestamp]); [None] is [undefined].  Reading off [null] throws:
    the callers treat it apart. *)
Definition field (j : json) (k : string) : option json :=
  match j with
  | JObj fields => assoc k fields
  | _ => None
  end.

(** ** The fragment of JavaScript snippets are written in *)

Inductive expr : Type :=
| ENull
| EBool (b : bool)
| ENum (n : Z)
| EStr (s : string)
| EVar (x : string)
| EMember (e : expr) (p : string)                 (* e.p *)
| EAssign (e : expr) (p : string) (rhs : expr)    (* e.p = rhs *)
| EAdd (e1 e2 : expr)                             (* e1 + e2 *)
| ECall (f : expr) (args : list expr)             (* f(args) *)
| ENew (f : expr) (args : list expr).             (* new f(args) *)

Inductive stmt : Type :=
| SExpr (e : expr)                                (* e; *)
| SReturn (e : option expr)                       (* return; return e; *)
| SThrow (e : expr)                               (* throw e; *)
| SWhile (c : expr) (body : list stmt).           (* while (c) { body } *)

(** What [new Function(..., text)] makes of the snippet text: a
    [SyntaxError], or the statements of the function body.  The text is
    taken to be a statement list by itself. *)
Inductive parsed : Type :=
| SyntaxError (message : string)
| Program (body : list stmt).

(** ** Values, heap and state *)

Definition loc := nat.

(** The four console methods. *)
Inductive kind : Type := Log | Error | Warn | Info.

Definition kind_name (k : kind) : string :=
  match k with
  | Log => "log" | Error => "error" | Warn => "warn" | Info => "info"
  end.

Inductive value : Type :=
| VUndefined
| VNull
| VBool (b : bool)
| VNum (n : Z)
| VStr (s : string)
| VRef (l : loc)                     (* an object or array of the heap *)
| VError (name message : string)     (* an Error object *)
| VContextConsole (k : kind)         (* (...args) => ({ type: k, args }) *)
| VCapture (k : kind)                (* the wrapper's console.k *)
| VHost (name : string).             (* a value of the host, opaque *)
Arguments VRef l%_nat.

(** An object with its properties; an array with its items; an array
    that has been given properties of its own beside its items. *)
Inductive obj : Type :=
| OObj (props : list (string * value))
| OArr (items : list value)
| OArrP (items : list value) (props : list (string * value)).

(** [reads] counts the calls of [Date.now()] made so far. *)
Record state : Type := mkState { heap : list obj; reads : nat }.

Definition alloc (o : obj) (st : state) : loc * state :=
  (length (heap st), mkState (heap st ++ [o]) (reads st)).

Definition store (l : loc) (o : obj) (st : state) : state :=
  mkState (<[l := o]> (heap st)) (reads st).

(** [truthy v] is [!!v]. *)
Definition truthy (v : value) : bool :=
  match v with
  | VUndefined | VNull => false
  | VBool b => b
  | VNum n => negb (n =? 0)
  | VStr s => negb (String.eqb s "")
  | _ => true
  end.

Definition jtruthy (j : json) : bool :=
  match j with
  | JNull => false
  | JBool b => b
  | JNum n => negb (n =? 0)
  | JStr s => negb (String.eqb s "")
  | _ => true
  end.

(** ** Outcomes of running host or snippet code *)

Inductive outcome (A : Type) : Type :=
| Done (a : A) (st : state)          (* completed *)
| Raised (v : value) (st : state)    (* threw v *)
| Unmodelled                         (* left the fragment *)
| Diverged.                          (* still running when the fuel ran out *)
Arguments Done {A} a st.
Arguments Raised {A} v st.
Arguments Unmodelled {A}.
Arguments Diverged {A}.

Definition bind {A B : Type} (m : outcome A) (k : A -> state -> outcome B)
  : outcome B :=
  match m with
  | Done a st => k a st
  | Raised v st => Raised v st
  | Unmodelled => Unmodelled
  | Diverged => Diverged
  end.

Notation "'let*' ( x , st ) := m 'in' k" :=
  (bind m (fun x st => k))
  (at level 10, x name, st name, m at level 100, k at level 200).

(** The hosting environment: how deep calls may nest before the engine
    raises its stack [RangeError], the readings of the clock, the global
    scope the functions made by [new Function] close over, and the
    parser. *)
Record Host : Type := mkHost {
  stack_limit : nat;
  now : nat -> Z;
  global_scope : string -> option value;
  parse : string -> parsed
}.

(** ** Property access *)

(** The names the host code itself reads off values it has not built:
    [context.response], [context.request], [error.message], and [code] and
    [context] of the request body.  None of [Object.prototype],
    [Array.prototype], [String.prototype], [Number.prototype],
    [Boolean.prototype] and [Function.prototype] defines one of them, so
    where the value has no such property of its own the read gives
    [undefined]. *)
Definition plain_names : list string :=
  ["response"; "request"; "message"; "code"; "context"].

(** The members every object inherits from [Object.prototype]; reading
    them is outside the fragment. *)
Definition object_prototype_members : list string :=
  ["constructor"; "__defineGetter__"; "__defineSetter__"; "hasOwnProperty";
   "__lookupGetter__"; "__lookupSetter__"; "isPrototypeOf";
   "propertyIsEnumerable"; "toString"; "valueOf"; "__proto__";
   "toLocaleString"].

Definition mem (x : string) (l : list string) : bool :=
  existsb (String.eqb x) l.

Definition TypeError (message : string) : value := VError "TypeError" message.
Definition ReferenceError (message : string) : value :=
  VError "ReferenceError" message.
Definition RangeError (message : string) : value := VError "RangeError" message.

(** [arr.p] for an array with the items [items] and the properties
    [props] of its own: a property of its own, else [length], else the
    method of [Array.prototype] for [push] and [pop]. *)
Definition array_member (items : list value) (props : list (string * value))
           (p : string) (st : state) : outcome value :=
  match assoc p props with
  | Some w => Done w st
  | None =>
      if String.eqb p "length" then Done (VNum (Z.of_nat (length items))) st
      else if String.eqb p "push" then Done (VHost "Array.prototype.push") st
      else if String.eqb p "pop" then Done (VHost "Array.prototype.pop") st
      else if mem p plain_names then Done VUndefined st
      else Unmodelled
  end.

(** [v.p] *)
Definition get_member (st : state) (v : value) (p : string) : outcome value :=
  match v with
  | VUndefined =>
      Raised (TypeError ("Cannot read properties of undefined (reading '"
                           ++ p ++ "')")) st
  | VNull =>
      Raised (TypeError ("Cannot read properties of null (reading '"
                           ++ p ++ "')")) st
  | VRef l =>
      match heap st !! l with
      | Some (OObj props) =>
          match assoc p props with
          | Some w => Done w st
          | None =>
              if mem p object_prototype_members then Unmodelled
              else Done VUndefined st
          end
      | Some (OArr items) => array_member items [] p st
      | Some (OArrP items props) => array_member items props p st
      | None => Unmodelled
      end
  | VError name message =>
      if String.eqb p "message" then Done (VStr message) st
      else if String.eqb p "name" then Done (VStr name) st
      else Unmodelled
  | VBool _ | VNum _ | VStr _ | VContextConsole _ | VCapture _ =>
      if mem p plain_names then Done VUndefined st else Unmodelled
  | VHost _ => Unmodelled
  end.

(** A name made of digits only: an array index, or a name the model
    keeps off arrays. *)
Definition is_digit (c : ascii) : bool :=
  let n := nat_of_ascii c in ((48 <=? n)%nat && (n <=? 57)%nat).

Fixpoint all_digits (s : string) : bool :=
  match s with
  | EmptyString => true
  | String c rest => is_digit c && all_digits rest
  end.

(** [arr.p = r] for a name [p] that is no index and not [length]: the
    array gets, or changes, a property of its own. *)
Definition array_set (l : loc) (items : list value)
           (props : list (string * value)) (p : string) (r : value)
           (st : state) : outcome unit :=
  if String.eqb p "__proto__" || String.eqb p "length" || all_digits p
  then Unmodelled
  else Done tt (store l (OArrP items (assoc_set p r props)) st).

(** [v.p = r], in strict mode. *)
Definition set_member (st : state) (v : value) (p : string) (r : value)
  : outcome unit :=
  match v with
  | VUndefined =>
      Raised (TypeError ("Cannot set properties of undefined (setting '"
                           ++ p ++ "')")) st
  | VNull =>
      Raised (TypeError ("Cannot set properties of null (setting '"
                           ++ p ++ "')")) st
  | VRef l =>
      match heap st !! l with
      | Some (OObj props) =>
          if String.eqb p "__proto__" then Unmodelled
          else Done tt (store l (OObj (assoc_set p r props)) st)
      | Some (OArr items) => array_set l items [] p r st
      | Some (OArrP items props) => array_set l items props p r st
      | None => Unmodelled
      end
  | _ => Unmodelled
  end.

(** [arr.push(v)] as the wrapper's console methods call it: the method
    of [Array.prototype], unless the array has a [push] of its own. *)
Definition push (st : state) (arr : value) (v : value) : outcome unit :=
  match arr with
  | VRef l =>
      match heap st !! l with
      | Some (OArr items) => Done tt (store l (OArr (items ++ [v])) st)
      | Some (OArrP items props) =>
          match assoc "push" props with
          | None => Done tt (store l (OArrP (items ++ [v]) props) st)
          | Some _ => Unmodelled
          end
      | _ => Unmodelled
      end
  | _ => Unmodelled
  end.

(** The items of an array, and an array with other items. *)
Definition items_of (o : obj) : option (list value) :=
  match o with
  | OObj _ => None
  | OArr items => Some items
  | OArrP items _ => Some items
  end.

Definition with_items (o : obj) (items : list value) : obj :=
  match o with
  | OObj props => OObj props
  | OArr _ => OArr items
  | OArrP _ props => OArrP items props
  end.

(** The built-in functions the model follows, called on [this] with
    [args]: [Array.prototype.push] and [Array.prototype.pop] on an
    array, and [String] on one string. *)
Definition builtin (name : string) (this : value) (args : list value)
           (st : state) : outcome value :=
  if String.eqb name "Array.prototype.push" then
    match this with
    | VRef l =>
        match heap st !! l with
        | Some o =>
            match items_of o with
            | Some items =>
                Done (VNum (Z.of_nat (length (items ++ args))))
                     (store l (with_items o (items ++ args)) st)
            | None => Unmodelled
            end
        | None => Unmodelled
        end
    | _ => Unmodelled
    end
  else if String.eqb name "Array.prototype.pop" then
    match this with
    | VRef l =>
        match heap st !! l with
        | Some o =>
            match items_of o with
            | Some [] => Done VUndefined st
            | Some (i :: items) =>
                Done (List.last items i)
                     (store l (with_items o (removelast (i :: items))) st)
            | None => Unmodelled
            end
        | None => Unmodelled
        end
    | _ => Unmodelled
    end
  else if String.eqb name "String" then
    match args with
    | [VStr s] => Done (VStr s) st
    | _ => Unmodelled
    end
  else Unmodelled.

(** ** Scopes *)

(** A name of a frame is bound to a value, or declared by a [const]
    whose initialiser has not finished, or bound to something the model
    leaves out. *)
Inductive binding : Type :=
| Bound (v : value)
| Uninitialised
| Opaque.

Definition frame := list (string * binding).
Definition scope := list frame.      (* innermost frame first *)

Fixpoint lookup_scope (x : string) (sc : scope) : option binding :=
  match sc with
  | [] => None
  | f :: outer =>
      match assoc x f with
      | Some b => Some b
      | None => lookup_scope x outer
      end
  end.

Section Interpreter.

Context (H : Host).

(** Resolution of the identifier [x]: the frames from the inside out,
    then the global scope of the host. *)
Definition resolve (sc : scope) (x : string) (st : state) : outcome value :=
  match lookup_scope x sc with
  | Some (Bound v) => Done v st
  | Some Uninitialised =>
      Raised (ReferenceError ("Cannot access '" ++ x
                                ++ "' before initialization")) st
  | Some Opaque => Unmodelled
  | None =>
      match global_scope H x with
      | Some v => Done v st
      | None => Raised (ReferenceError (x ++ " is not defined")) st
      end
  end.

(** [Date.now()] *)
Definition date_now (st : state) : outcome Z :=
  Done (now H (reads st)) (mkState (heap st) (S (reads st))).

(** The text of a callee, for the message of a call of a non-function. *)
Fixpoint callee_text (e : expr) : option string :=
  match e with
  | EVar x => Some x
  | EMember o p =>
      match callee_text o with
      | Some s => Some (s ++ "." ++ p)
      | None => None
      end
  | _ => None
  end.

(** The integers up to [2^53] in size: a sum of two of them that is one
    of them is the sum the engine computes. *)
Definition exact_integer (n : Z) : bool := Z.abs n <=? 2 ^ 53.

Definition add (a b : value) (st : state) : outcome value :=
  match a, b with
  | VNum m, VNum n =>
      if exact_integer m && exact_integer n && exact_integer (m + n)
      then Done (VNum (m + n)) st
      else Unmodelled
  | VStr s, VStr t => Done (VStr (s ++ t)) st
  | _, _ => Unmodelled
  end.

(** [new f(args)]: only the host's [Error] is modelled. *)
Definition construct (f : value) (args : list value) (st : state)
  : outcome value :=
  match f with
  | VHost name =>
      if String.eqb name "Error" then
        match args with
        | [] => Done (VError "Error" "") st
        | VStr s :: _ => Done (VError "Error" s) st
        | _ => Unmodelled
        end
      else Unmodelled
  | _ => Unmodelled
  end.

Definition stack_overflow : value :=
  RangeError "Maximum call stack size exceeded".

(** Calls of function values.  [sc] is the scope the snippet's code
    runs in; the wrapper's arrow functions resolve [results] and
    [originalConsole] in it too, the frames inside the wrapper's binding
    neither name.  [depth] counts the calls that are active above the
    snippet's own function; [this] is the object the function is called
    on, which only the built-in functions look at. *)
Fixpoint call (sc : scope) (fuel depth : nat) (text : option string) (f : value)
          (this : value) (args : list value) (st : state) {struct fuel}
  : outcome value :=
  match fuel with
  | O => Diverged
  | S fuel =>
      match f with
      | VContextConsole k =>
          (* (...args) => ({ type: k, args }) *)
          if (stack_limit H <=? depth)%nat then Raised stack_overflow st
          else
            let (la, st) := alloc (OArr args) st in
            let (lo, st) :=
              alloc (OObj [("type", VStr (kind_name k)); ("args", VRef la)]) st in
            Done (VRef lo) st
      | VCapture k =>
          (* (...args) => {
               results.push({ type: k, args, timestamp: Date.now() });
               return originalConsole.k(...args);
             } *)
          if (stack_limit H <=? depth)%nat then Raised stack_overflow st
          else
            let (la, st) := alloc (OArr args) st in
            let* (rs, st) := resolve sc "results" st in
            let* (t, st) := date_now st in
            let (le, st) :=
              alloc (OObj [("type", VStr (kind_name k)); ("args", VRef la);
                           ("timestamp", VNum t)]) st in
            let* (_, st) := push st rs (VRef le) in
            let* (oc, st) := resolve sc "originalConsole" st in
            let* (g, st) := get_member st oc (kind_name k) in
            call sc fuel (S depth)
                 (Some ("originalConsole." ++ kind_name k)) g oc args st
      | VHost name => builtin name this args st
      | _ =>
          match text with
          | Some s => Raised (TypeError (s ++ " is not a function")) st
          | None => Unmodelled
          end
      end
  end.

(** Expressions, their argument lists, statements and statement lists. *)
Fixpoint eval (sc : scope) (fuel depth : nat) (e : expr) (st : state)
  {struct fuel} : outcome value :=
  match fuel with
  | O => Diverged
  | S fuel =>
      match e with
      | ENull => Done VNull st
      | EBool b => Done (VBool b) st
      | ENum n => Done (VNum n) st
      | EStr s => Done (VStr s) st
      | EVar x => resolve sc x st
      | EMember o p =>
          let* (ov, st) := eval sc fuel depth o st in
          get_member st ov p
      | EAssign o p rhs =>
          let* (ov, st) := eval sc fuel depth o st in
          let* (r, st) := eval sc fuel depth rhs st in
          let* (_, st) := set_member st ov p r in
          Done r st
      | EAdd e1 e2 =>
          let* (a, st) := eval sc fuel depth e1 st in
          let* (b, st) := eval sc fuel depth e2 st in
          add a b st
      | ECall f args =>
          let* (callee, st) :=
            match f with
            | EMember o m =>
                let* (ov, st) := eval sc fuel depth o st in
                let* (fv, st) := get_member st ov m in
                Done (fv, ov) st
            | _ =>
                let* (fv, st) := eval sc fuel depth f st in
                Done (fv, VUndefined) st
            end in
          let* (vs, st) := eval_args sc fuel depth args st in
          call sc fuel depth (callee_text f) (fst callee) (snd callee) vs st
      | ENew f args =>
          let* (fv, st) := eval sc fuel depth f st in
          let* (vs, st) := eval_args sc fuel depth args st in
          construct fv vs st
      end
  end

with eval_args (sc : scope) (fuel depth : nat) (es : list expr) (st : state)
  {struct fuel} : outcome (list value) :=
  match fuel with
  | O => Diverged
  | S fuel =>
      match es with
      | [] => Done [] st
      | e :: rest =>
          let* (v, st) := eval sc fuel depth e st in
          let* (vs, st) := eval_args sc fuel depth rest st in
          Done (v :: vs) st
      end
  end.

Fixpoint exec (sc : scope) (fuel depth : nat) (s : stmt) (st : state)
  {struct fuel} : outcome (option value) :=
  match fuel with
  | O => Diverged
  | S fuel =>
      match s with
      | SExpr e =>
          let* (_, st) := eval sc fuel depth e st in
          Done None st
      | SReturn None => Done (Some VUndefined) st
      | SReturn (Some e) =>
          let* (v, st) := eval sc fuel depth e st in
          Done (Some v) st
      | SThrow e =>
          let* (v, st) := eval sc fuel depth e st in
          Raised v st
      | SWhile c body =>
          let* (v, st) := eval sc fuel depth c st in
          if truthy v then
            let* (r, st) := exec_list sc fuel depth body st in
            match r with
            | Some _ => Done r st
            | None => exec sc fuel depth (SWhile c body) st
            end
          else Done None st
      end
  end

with exec_list (sc : scope) (fuel depth : nat) (ss : list stmt) (st : state)
  {struct fuel} : outcome (option value) :=
  match fuel with
  | O => Diverged
  | S fuel =>
      match ss with
      | [] => Done None st
      | s :: rest =>
          let* (r, st) := exec sc fuel depth s st in
          match r with
          | Some _ => Done r st
          | None => exec_list sc fuel depth rest st
          end
      end
  end.

End Interpreter.

(** ** From JSON to the heap and back *)

(** [request.json()]: the value it yields, here [j], is built from
    fresh objects, the properties of each in the order of [j]. *)
Fixpoint alloc_json (j : json) (st : state) : value * state :=
  match j with
  | JNull => (VNull, st)
  | JBool b => (VBool b, st)
  | JNum n => (VNum n, st)
  | JStr s => (VStr s, st)
  | JArr items =>
      let '(vs, st) :=
        (fix go (items : list json) (st : state) : list value * state :=
           match items with
           | [] => ([], st)
           | i :: rest =>
               let '(v, st) := alloc_json i st in
               let '(vs, st) := go rest st in
               (v :: vs, st)
           end) items st in
      let (l, st) := alloc (OArr vs) st in
      (VRef l, st)
  | JObj fields =>
      let '(props, st) :=
        (fix go (fields : list (string * json)) (st : state)
           : list (string * value) * state :=
           match fields with
           | [] => ([], st)
           | (k, i) :: rest =>
               let '(v, st) := alloc_json i st in
               let '(props, st) := go rest st in
               ((k, v) :: props, st)
           end) fields st in
      let (l, st) := alloc (OObj props) st in
      (VRef l, st)
  end.

(** What [JSON.stringify] makes of a value. *)
Inductive ser (A : Type) : Type :=
| Json (a : A)
| Omitted                  (* undefined or a function: no text *)
| Circular (detail : string)
    (* TypeError: Converting circular structure to JSON, and the lines
       that tell the circle *)
| SerUnmodelled
| SerDiverged.
Arguments Json {A} a.
Arguments Omitted {A}.
Arguments Circular {A} detail.
Arguments SerUnmodelled {A}.
Arguments SerDiverged {A}.

(** The key a value is written out under: the name of a property or
    the index of an item. *)
Inductive key : Type :=
| KProp (k : string)
| KIndex (i : nat).

Definition index_text (i : nat) : string :=
  NilZero.string_of_uint (Nat.to_uint i).

Definition key_text (k : key) : string :=
  match k with
  | KProp s => s
  | KIndex i => index_text i
  end.

(** The properties of an object: one whose value has no text is left out. *)
Fixpoint ser_props (f : key -> value -> ser json)
         (props : list (string * value)) : ser (list (string * json)) :=
  match props with
  | [] => Json []
  | (k, v) :: rest =>
      match f (KProp k) v with
      | Json j =>
          match ser_props f rest with
          | Json js => Json ((k, j) :: js)
          | other => other
          end
      | Omitted => ser_props f rest
      | Circular d => Circular d
      | SerUnmodelled => SerUnmodelled
      | SerDiverged => SerDiverged
      end
  end.

(** The items of an array from the index [i] on: one whose value has
    no text becomes [null]. *)
Fixpoint ser_items_from (f : key -> value -> ser json) (i : nat)
         (items : list value) : ser (list json) :=
  match items with
  | [] => Json []
  | v :: rest =>
      match f (KIndex i) v with
      | Json j =>
          match ser_items_from f (S i) rest with
          | Json js => Json (j :: js)
          | other => other
          end
      | Omitted =>
          match ser_items_from f (S i) rest with
          | Json js => Json (JNull :: js)
          | other => other
          end
      | Circular d => Circular d
      | SerUnmodelled => SerUnmodelled
      | SerDiverged => SerDiverged
      end
  end.

Definition ser_items (f : key -> value -> ser json) (items : list value)
  : ser (list json) :=
  ser_items_from f 0 items.

(** The array index a property name stands for, if it does: the
    decimal text, without leading zeros, of a number below [2^32 - 1]. *)
Definition array_index (k : string) : option N :=
  match NilZero.uint_of_string k with
  | Some u =>
      let n := N.of_uint u in
      if String.eqb (NilZero.string_of_uint (N.to_uint n)) k
         && (n <=? 4294967294)%N
      then Some n else None
  | None => None
  end.

Definition is_index (k : string) : bool :=
  match array_index k with Some _ => true | None => false end.

Definition index_or_zero (k : string) : N :=
  match array_index k with Some n => n | None => 0%N end.

(** The order [JSON.stringify] takes the properties of an object in:
    those named by an array index first, by index, then the others as
    they were added. *)
Fixpoint insert_by_index {A : Type} (p : string * A) (l : list (string * A))
  : list (string * A) :=
  match l with
  | [] => [p]
  | q :: rest =>
      if (index_or_zero (fst p) <? index_or_zero (fst q))%N then p :: q :: rest
      else q :: insert_by_index p rest
  end.

Definition by_index {A : Type} (l : list (string * A)) : list (string * A) :=
  fold_right insert_by_index [] l.

Definition own_order {A : Type} (l : list (string * A)) : list (string * A) :=
  (by_index (List.filter (fun p => is_index (fst p)) l)
   ++ List.filter (fun p => negb (is_index (fst p))) l)%list.

(** The properties of its own an object or array has. *)
Definition own_props (o : obj) : list (string * value) :=
  match o with
  | OObj props => props
  | OArr _ => []
  | OArrP _ props => props
  end.

(** [value.toJSON(key)], which [JSON.stringify] calls before it writes
    [value] out when [toJSON] is a function: [None] when the value of
    the property [toJSON] is no function, else what is written in place
    of [value].  The calls followed are those that change nothing:
    [String(key)] is the key, and [pop] on an empty array is
    [undefined]. *)
Definition toJSON_call (f : value) (this : obj) (k : key)
  : option (ser json) :=
  match f with
  | VUndefined | VNull | VBool _ | VNum _ | VStr _ | VRef _ | VError _ _ =>
      None
  | VContextConsole _ | VCapture _ => Some SerUnmodelled
  | VHost name =>
      if String.eqb name "String" then Some (Json (JStr (key_text k)))
      else if String.eqb name "Array.prototype.pop" then
        match items_of this with
        | Some [] => Some Omitted
        | _ => Some SerUnmodelled
        end
      else Some SerUnmodelled
  end.

Definition toJSON (o : obj) (k : key) : option (ser json) :=
  match assoc "toJSON" (own_props o) with
  | Some f => toJSON_call f o k
  | None => None
  end.

(** The message of the engine's [TypeError] for a circular structure:
    a first line, then the object the circle starts at, the properties
    that lead from it to the object that holds it again (all of them
    when they are three at most, else the first two, an ellipsis and the
    last), and the property that closes the circle. *)
Definition circular_message : string := "Converting circular structure to JSON".

Definition newline : string := String (ascii_of_nat 10) "".

Definition constructor_name (o : option obj) : string :=
  match o with
  | Some (OArr _) | Some (OArrP _ _) => "'Array'"
  | _ => "'Object'"
  end.

Definition key_line (k : key) : string :=
  match k with
  | KProp "" => "<anonymous>"
  | KProp s => "property '" ++ s ++ "'"
  | KIndex i => "index " ++ index_text i
  end.

(** The objects written out inside [l], innermost first. *)
Fixpoint inside (l : loc) (seen : list (key * loc)) : list (key * loc) :=
  match seen with
  | [] => []
  | (k, l') :: rest =>
      if Nat.eqb l' l then [] else (k, l') :: inside l rest
  end.

Definition circle (h : list obj) (seen : list (key * loc)) (l : loc)
           (closing : key) : string :=
  let line (e : key * loc) :=
    newline ++ "    |     " ++ key_line (fst e)
      ++ " -> object with constructor " ++ constructor_name (h !! snd e) in
  let ellipsis := newline ++ "    |     ..." in
  let path := rev (inside l seen) in
  let lines :=
    if (length path <=? 3)%nat then map line path
    else (map line (firstn 2 path) ++ [ellipsis]
          ++ map line (skipn (length path - 1) path))%list in
  newline ++ "    --> starting at object with constructor "
    ++ constructor_name (h !! l)
    ++ String.concat "" lines
    ++ newline ++ "    --- " ++ key_line closing ++ " closes the circle".

(** [seen] holds the objects being written out around [v], innermost
    first, each with the key it was reached under; [k] is the key of
    [v]. *)
Fixpoint serialize (fuel : nat) (st : state) (seen : list (key * loc))
         (k : key) (v : value) : ser json :=
  match fuel with
  | O => SerDiverged
  | S fuel =>
      match v with
      | VUndefined | VContextConsole _ | VCapture _ => Omitted
      | VNull => Json JNull
      | VBool b => Json (JBool b)
      | VNum n => Json (JNum n)
      | VStr s => Json (JStr s)
      | VError _ _ => Json (JObj [])
      | VHost _ => SerUnmodelled
      | VRef l =>
          match heap st !! l with
          | Some o =>
              match toJSON o k with
              | Some replaced => replaced
              | None =>
                  if existsb (fun e => Nat.eqb l (snd e)) seen
                  then Circular (circle (heap st) seen l k)
                  else
                    match o with
                    | OObj props =>
                        match
                          ser_props (serialize fuel st ((k, l) :: seen))
                                    (own_order props)
                        with
                        | Json fields => Json (JObj fields)
                        | Omitted => Omitted
                        | Circular d => Circular d
                        | SerUnmodelled => SerUnmodelled
                        | SerDiverged => SerDiverged
                        end
                    | OArr items | OArrP items _ =>
                        match
                          ser_items (serialize fuel st ((k, l) :: seen)) items
                        with
                        | Json js => Json (JArr js)
                        | Omitted => Omitted
                        | Circular d => Circular d
                        | SerUnmodelled => SerUnmodelled
                        | SerDiverged => SerDiverged
                        end
                    end
              end
          | None => SerUnmodelled
          end
      end
  end.

(** ** The filter of [safeEval] *)

Definition dangerousKeywords : list string :=
  ["eval"; "Function"; "setTimeout"; "setInterval"; "clearTimeout";
   "clearInterval"; "XMLHttpRequest"; "fetch"; "import"; "require";
   "process"; "global"; "__dirname"; "__filename"; "Buffer"; "module";
   "exports"].

(** A pattern of [dangerousPatterns]: its [source], and the text it
    matches.  Each of the eight is a sequence of literal characters (the
    dot of the last one escaped), built afresh at every call, so that
    [pattern.test(code)] finds the literal anywhere in [code]. *)
Record pattern : Type := mkPattern { source : string; literal : string }.

Definition dangerousPatterns : list pattern :=
  [mkPattern "constructor" "constructor";
   mkPattern "prototype" "prototype";
   mkPattern "__proto__" "__proto__";
   mkPattern "window" "window";
   mkPattern "document" "document";
   mkPattern "location" "location";
   mkPattern "navigator" "navigator";
   mkPattern "this\." "this."].

Definition test (p : pattern) (code : string) : bool :=
  Str.includes code (literal p).

Definition unsafe_keyword (code : string) : option string :=
  find (Str.includes code) dangerousKeywords.

Definition unsafe_pattern (code : string) : option pattern :=
  find (fun p => test p code) dangerousPatterns.

(** ** [safeEval] *)

Section Service.

Context (H : Host).

(** [v || {}] *)
Definition or_empty_object (v : value) (st : state) : value * state :=
  if truthy v then (v, st)
  else let (l, st) := alloc (OObj []) st in (VRef l, st).

(** The object literal [safeContext], key by key. *)
Definition safeContext (context : value) (st : state)
  : outcome (list (string * value)) :=
  let* (r, st) := get_member st context "response" in
  let (response, st) := or_empty_object r st in
  let* (q, st) := get_member st context "request" in
  let (request, st) := or_empty_object q st in
  let (console, st) :=
    alloc (OObj [("log", VContextConsole Log);
                 ("error", VContextConsole Error);
                 ("warn", VContextConsole Warn);
                 ("info", VContextConsole Info)]) st in
  Done [("response", response);
        ("request", request);
        ("JSON", VHost "JSON");
        ("console", VRef console);
        ("Object", VHost "Object");
        ("Array", VHost "Array");
        ("String", VHost "String");
        ("Number", VHost "Number");
        ("Date", VHost "Date");
        ("Math", VHost "Math");
        ("RegExp", VHost "RegExp")] st.

(** The frame of the parameters [Object.keys(safeContext)], bound to the
    arguments [Object.values(safeContext)]. *)
Definition parameters (ctx : list (string * value)) : frame :=
  map (fun kv => (fst kv, Bound (snd kv))) ctx.

(** The frame of the wrapper's own declarations. *)
Definition declarations (results originalConsole : value) : frame :=
  [("results", Bound results); ("originalConsole", Bound originalConsole)].

(** The scope of the snippet: the frame of its own function, the block
    of the [try] whose [const result] is being initialised, the
    wrapper's declarations, the parameters. *)
Definition snippet_scope (wrapper : scope) : scope :=
  [("arguments", Opaque)] :: [("result", Uninitialised)] :: wrapper.

(** The function [new Function(...Object.keys(safeContext), `...`)]
    applied to [Object.values(safeContext)], its body being the template
    with the snippet in place of [${code}].  First the statements that
    precede the [try]; they leave the wrapper's scope. *)
Definition prologue (ctx : list (string * value)) (st : state)
  : outcome scope :=
  let params := parameters ctx in
  (* const results = []; *)
  let (results, st) := alloc (OArr []) st in
  (* const originalConsole = console; *)
  let* (originalConsole, st) := resolve H [params] "console" st in
  let wrapper := [declarations (VRef results) originalConsole; params] in
  (* console.log = ...; console.error = ...; console.warn = ...;
     console.info = ...; *)
  let* (console, st) := resolve H wrapper "console" st in
  let* (_, st) := set_member st console "log" (VCapture Log) in
  let* (_, st) := set_member st console "error" (VCapture Error) in
  let* (_, st) := set_member st console "warn" (VCapture Warn) in
  let* (_, st) := set_member st console "info" (VCapture Info) in
  Done wrapper st.

(** [(function() { ${code} })()] *)
Definition run_snippet (wrapper : scope) (body : list stmt) (fuel : nat)
                       (st : state) : outcome value :=
  let* (r, st) := exec_list H (snippet_scope wrapper) fuel 0 body st in
  Done (match r with Some v => v | None => VUndefined end) st.

(** [try { const result = (function() { ${code} })(); return {...}; }
     catch (error) { return {...}; }] *)
Definition func (ctx : list (string * value)) (body : list stmt)
                (fuel : nat) (st : state) : outcome (list (string * value)) :=
  let* (wrapper, st) := prologue ctx st in
  match run_snippet wrapper body fuel st with
  | Done result st =>
      let* (console, st) := resolve H wrapper "results" st in
      Done [("result", result); ("console", console);
            ("success", VBool true)] st
  | Raised error st =>
      let* (console, st) := resolve H wrapper "results" st in
      let* (message, st) := get_member st error "message" in
      Done [("result", VNull); ("console", console); ("error", message);
            ("success", VBool false)] st
  | Unmodelled => Unmodelled
  | Diverged => Diverged
  end.

(** [error instanceof Error ? error.message : 'Unknown error'] *)
Definition message_or_unknown (error : value) : string :=
  match error with
  | VError _ message => message
  | _ => "Unknown error"
  end.

Definition safeEval (code : string) (context : value) (fuel : nat)
                    (st : state) : outcome (list (string * value)) :=
  let* (ctx, st) := safeContext context st in
  match unsafe_keyword code with
  | Some keyword =>
      Raised (VError "Error"
                ("Unsafe code detected: " ++ keyword ++ " is not allowed")) st
  | None =>
      match unsafe_pattern code with
      | Some p =>
          Raised (VError "Error"
                    ("Unsafe code pattern detected: " ++ source p)) st
      | None =>
          let attempt :=
            match parse H code with
            | SyntaxError message => Raised (VError "SyntaxError" message) st
            | Program body => func ctx body fuel st
            end in
          match attempt with
          | Raised error st =>
              Raised (VError "Error"
                        ("Execution error: " ++ message_or_unknown error)) st
          | other => other
          end
      end
  end.

(** ** [POST] *)

(** The request as [request.json()] finds it. *)
Inductive request_body : Type :=
| BadJson (message : string)     (* not JSON: [request.json()] rejects *)
| Body (j : json).

Record response : Type := mkResponse { status : Z; body : json }.

(** [NextResponse.json(props, { status })] *)
Definition json_response (status : Z) (props : list (string * value))
                         (fuel : nat) (st : state) : outcome response :=
  match ser_props (serialize fuel st []) props with
  | Json fields => Done (mkResponse status (JObj fields)) st
  | Omitted => Unmodelled
  | Circular detail => Raised (TypeError (circular_message ++ detail)) st
  | SerUnmodelled => Unmodelled
  | SerDiverged => Diverged
  end.

(** The three replies that precede evaluation. *)
Definition rejection (message : string) : response :=
  mkResponse 400 (JObj [("error", JStr message)]).

(** [context || {}] for the [context] of the body, [None] being
    [undefined]; the objects of [context] are placed in the heap here,
    nothing else of the body reaches the snippet. *)
Definition context_or_empty (context : option json) (st : state)
  : value * state :=
  match context with
  | Some c =>
      if jtruthy c then alloc_json c st
      else let (l, st) := alloc (OObj []) st in (VRef l, st)
  | None => let (l, st) := alloc (OObj []) st in (VRef l, st)
  end.

(** [!code] *)
Definition missing (code : option json) : bool :=
  match code with
  | Some c => negb (jtruthy c)
  | None => true
  end.

(** The [catch] block of [POST]; what it prints on the server's own
    console is left out. *)
Definition caught (error : value) (fuel : nat) (st : state)
  : outcome response :=
  let (console, st) := alloc (OArr []) st in
  let* (message, st) := get_member st error "message" in
  let* (timestamp, st) := date_now H st in
  json_response 400
    [("result", VNull); ("console", VRef console); ("error", message);
     ("success", VBool false); ("executionTime", VNum 0);
     ("timestamp", VNum timestamp)]
    fuel st.

Definition POST (request : request_body) (fuel : nat) (st : state)
  : outcome response :=
  let attempt :=
    match request with
    | BadJson message =>
        (* await request.json() *)
        Raised (VError "SyntaxError" message) st
    | Body JNull =>
        (* const { code, context } = body; *)
        Raised (TypeError
                  "Cannot destructure property 'code' of 'body' as it is null.")
               st
    | Body body =>
        let code := field body "code" in
        let context := field body "context" in
        if missing code then
          Done (rejection "Missing required field: code") st
        else
          match code with
          | Some (JStr text) =>
              if 10000 <? Str.len text then
                Done (rejection
                        "Code too long. Maximum 10,000 characters allowed.") st
              else
                let* (startTime, st) := date_now H st in
                let (context, st) := context_or_empty context st in
                let* (result, st) := safeEval text context fuel st in
                let* (endTime, st) := date_now H st in
                let executionTime := endTime - startTime in
                let* (timestamp, st) := date_now H st in
                json_response 200
                  (assoc_set "timestamp" (VNum timestamp)
                     (assoc_set "executionTime" (VNum executionTime) result))
                  fuel st
          | _ => Done (rejection "Code must be a string") st
          end
    end in
  match attempt with
  | Raised error st => caught error fuel st
  | other => other
  end.

End Service.

(** ** [executeCode] of the console component *)

Module Console.

Definition null_read (k : string) : string :=
  "Cannot read properties of null (reading '" ++ k ++ "')".

(** The own enumerable properties [{ ...j }] copies: the fields of an
    object, the items of an array and the characters of a string under
    their indices, nothing for the other values. *)
Fixpoint indexed {A : Type} (n : nat) (l : list A) : list (string * A) :=
  match l with
  | [] => []
  | x :: rest =>
      (NilZero.string_of_uint (Nat.to_uint n), x) :: indexed (S n) rest
  end.

Definition spread (j : json) : list (string * json) :=
  match j with
  | JObj fields => fields
  | JArr items => indexed 0 items
  | JStr s =>
      indexed 0 (map (fun c => JStr (String c "")) (list_ascii_of_string s))
  | _ => []
  end.

Section Component.

(** The readings of the browser's clock. *)
Context (clock : nat -> Z).

(** [{ ...item, timestamp: item.timestamp || Date.now() }], [n] being
    the number of clock readings so far. *)
Definition stamp (n : nat) (item : json) : string + (json * nat) :=
  match item with
  | JNull => inl (null_read "timestamp")
  | _ =>
      match field item "timestamp" with
      | Some t =>
          if jtruthy t then inr (JObj (spread item), n)
          else
            inr (JObj (assoc_set "timestamp" (JNum (clock n)) (spread item)),
                 S n)
      | None =>
          inr (JObj (assoc_set "timestamp" (JNum (clock n)) (spread item)),
               S n)
      end
  end.

(** [result.console.map(item => ...)]: the stamped items and the
    number of clock readings after them, or the message of what an item
    threw and the number of readings made until then. *)
Fixpoint stamp_all (n : nat) (items : list json)
  : string * nat + list json * nat :=
  match items with
  | [] => inr ([], n)
  | item :: rest =>
      match stamp n item with
      | inl m => inl (m, n)
      | inr (j, n) =>
          match stamp_all n rest with
          | inl m => inl m
          | inr (js, n) => inr (j :: js, n)
          end
      end
  end.

(** The entries of the reply that are shown: those of [result.console]
    when that is an array. *)
Definition server_entries (result : json) : list json :=
  match field result "console" with
  | Some (JArr items) => items
  | _ => []
  end.

(** The entry the component adds for a returned value. *)
Definition result_entry (v : json) (t : Z) : json :=
  JObj [("type", JStr "result"); ("args", JArr [v]); ("timestamp", JNum t)].

Definition failure_entry (message : string) (t : Z) : json :=
  JObj [("type", JStr "error");
        ("args", JArr [JStr "Execution failed:"; JStr message]);
        ("timestamp", JNum t)].

(** The body of the [try] once [response_api.json()] has given
    [result]: the console output it leaves, starting from the empty
    output [clearConsole] has set, or the message of what it threw and
    the number of clock readings made until then. *)
Definition show (result : json) : string * nat + list json :=
  match result with
  | JNull => inl (null_read "console", O)
  | _ =>
      (* if (result.console && Array.isArray(result.console)) *)
      match stamp_all 0 (server_entries result) with
      | inl m => inl m
      | inr (output, n) =>
          (* if (result.success && result.result !== undefined) *)
          let appended :=
            match field result "success", field result "result" with
            | Some s, Some v =>
                if jtruthy s then [result_entry v (clock n)] else []
            | _, _ => []
            end in
          inr ((output ++ appended)%list)
      end
  end.

(** The console output after [executeCode] has a reply: what the [try]
    leaves, or the one entry of the [catch], stamped with the next
    reading of the clock. *)
Definition consoleOutput (result : json) : list json :=
  match show result with
  | inr output => output
  | inl (message, n) => [failure_entry message (clock n)]
  end.

End Component.

(** What [executeCode] sends: nothing when [!code.trim()], else the body
    [{ code, context: { response: response || {}, request: request || {} } }],
    [None] standing for a [response] or [request] that is not set. *)
Definition or_empty (j : option json) : json :=
  match j with
  | Some v => if jtruthy v then v else JObj []
  | None => JObj []
  end.

Definition request_of (code : string) (response request : option json)
  : option request_body :=
  if Str.trim_is_empty code then None
  else Some (Body (JObj [("code", JStr code);
                         ("context", JObj [("response", or_empty response);
                                           ("request", or_empty request)])])).

End Console.

(** ** The sample scripts of the console component *)

Module Samples.

Record sample : Type :=
  mkSample { name : string; description : string; code : string }.

Definition extract_response_data : sample :=
  mkSample "Extract Response Data"
    "Extract specific fields from response"
    "// Extract specific fields from API response
if (response.data) {
  console.log('Response status:', response.status);
  console.log('Response data type:', typeof response.data);
  
  if (Array.isArray(response.data)) {
    console.log('Array length:', response.data.length);
    return response.data.slice(0, 3); // First 3 items
  } else if (typeof response.data === 'object') {
    const keys = Object.keys(response.data);
    console.log('Object keys:', keys);
    return keys.reduce((acc, key) => {
      acc[key] = response.data[key];
      return acc;
    }, {});
  }
  
  return response.data;
} else {
  console.log('No response data available');
  return null;
}".

Definition validate_response : sample :=
  mkSample "Validate Response"
    "Check response structure and validate data"
    "// Validate API response structure
const validation = {
  hasData: !!response.data,
  status: response.status,
  isSuccess: response.status >= 200 && response.status < 300,
  responseTime: response.responseTime + 'ms',
  dataType: typeof response.data,
  isJSON: typeof response.data === 'object'
};

console.log('Validation Results:', validation);

// Check for required fields (example)
if (response.data && typeof response.data === 'object') {
  const requiredFields = ['id', 'name', 'email']; // customize as needed
  const missingFields = requiredFields.filter(field => !(field in response.data));
  
  if (missingFields.length > 0) {
    console.warn('Missing required fields:', missingFields);
  } else {
    console.log('All required fields present');
  }
}

return validation;".

Definition process_array_data : sample :=
  mkSample "Process Array Data"
    "Filter, map, and process array responses"
    "// Process array data from API response
if (Array.isArray(response.data)) {
  console.log('Processing array with', response.data.length, 'items');
  
  // Example processing
  const processed = response.data
    .filter(item => item && typeof item === 'object')
    .map((item, index) => ({
      index: index,
      ...item,
      processed_at: new Date().toISOString()
    }))
    .slice(0, 5); // Limit to first 5 items
  
  console.log('Processed items:', processed.length);
  return processed;
} else {
  console.log('Response is not an array');
  return response.data;
}".

Definition extract_headers_info : sample :=
  mkSample "Extract Headers Info"
    "Analyze response headers"
    "// Analyze response headers
const headerAnalysis = {
  contentType: response.headers['content-type'] || 'not set',
  contentLength: response.headers['content-length'] || 'not set',
  server: response.headers['server'] || 'not set',
  cacheControl: response.headers['cache-control'] || 'not set',
  cors: {
    allowOrigin: response.headers['access-control-allow-origin'] || 'not set',
    allowMethods: response.headers['access-control-allow-methods'] || 'not set'
  }
};

console.log('Header Analysis:', headerAnalysis);
console.log('All headers:', Object.keys(response.headers));

return headerAnalysis;".

Definition SAMPLE_SCRIPTS : list sample :=
  [extract_response_data; validate_response; process_array_data;
   extract_headers_info].

(** [loadSample]: the code the editor holds afterwards; the output and
    the result are cleared. *)
Definition loadSample (s : sample) : string := code s.

End Samples.

(** ** The dashboard that hosts the console *)

(** The objects of the page are JSON values; a property that holds
    [undefined] is a key the object does not have. *)
Module Dashboard.

Record dashboard : Type := mkDashboard {
  activeRequest : option json;
  activeResponse : option json;
  requestHistory : list json;
  isLoading : bool
}.

Definition initial : dashboard := mkDashboard None None [] false.

(** What the [try] of [handleRequestSend] gets from the proxy: [fetch]
    or [response.json()] rejects with [error], or the reply parses as
    [responseData]. *)
Inductive fetched : Type :=
| Failed (error : value)
| Replied (responseData : json).

(** The properties of an object literal that are not [undefined]. *)
Fixpoint defined (props : list (string * option json))
  : list (string * json) :=
  match props with
  | [] => []
  | (k, Some v) :: rest => (k, v) :: defined rest
  | (_, None) :: rest => defined rest
  end.

Section Page.

(** The length of the text [JSON.stringify] gives for a value. *)
Context (text_length : json -> Z).

(** The object literal [apiResponse] of the [try], or the error its
    evaluation throws. *)
Definition apiResponse (responseData : json) (responseTime : Z)
  : value + json :=
  match responseData with
  | JNull => inl (TypeError (Console.null_read "status"))
  | _ =>
      match field responseData "data" with
      | None =>
          inl (TypeError
                 "Cannot read properties of undefined (reading 'length')")
      | Some data =>
          inr (JObj (defined
                 [("status", field responseData "status");
                  ("statusText", field responseData "statusText");
                  ("headers", field responseData "headers");
                  ("data", Some data);
                  ("responseTime", Some (JNum responseTime));
                  ("size", Some (JNum (text_length data)))]))
      end
  end.

(** The object literal [apiResponse] of the [catch]. *)
Definition network_error (error : value) : json :=
  JObj [("status", JNum 0);
        ("statusText", JStr "Network Error");
        ("headers", JObj []);
        ("data", JObj [("error", JStr "Request failed");
                       ("details", JStr (message_or_unknown error))]);
        ("responseTime", JNum 0);
        ("size", JNum 0)].

(** [{ ...request, response: apiResponse }] *)
Definition history_item (request response : json) : json :=
  JObj (assoc_set "response" response (Console.spread request)).

(** The outcome of the [try]: the response and the history item, or
    what was thrown. *)
Definition attempt (request : json) (reply : fetched) (startTime endTime : Z)
  : value + json * json :=
  match reply with
  | Failed error => inl error
  | Replied responseData =>
      match apiResponse responseData (endTime - startTime) with
      | inl error => inl error
      | inr response => inr (response, history_item request response)
      end
  end.

(** The state [handleRequestSend] leaves once it has finished, the two
    readings of the clock being [startTime] and [endTime]. *)
Definition handleRequestSend (request : json) (reply : fetched)
           (startTime endTime : Z) (d : dashboard) : dashboard :=
  match attempt request reply startTime endTime with
  | inr (response, item) =>
      mkDashboard (Some request) (Some response)
                  (item :: take 49 (requestHistory d)) false
  | inl error =>
      mkDashboard (Some request) (Some (network_error error))
                  (requestHistory d) false
  end.

Definition handleHistorySelect (historyItem : json) (d : dashboard)
  : dashboard :=
  mkDashboard (Some historyItem)
              (match field historyItem "response" with
               | Some r => if jtruthy r then Some r else activeResponse d
               | None => activeResponse d
               end)
              (requestHistory d) (isLoading d).

(** What happens on the page, and the state after a sequence of such
    events. *)
Inductive event : Type :=
| Send (request : json) (reply : fetched) (startTime endTime : Z)
| Select (historyItem : json).

Definition step (d : dashboard) (e : event) : dashboard :=
  match e with
  | Send request reply startTime endTime =>
      handleRequestSend request reply startTime endTime d
  | Select historyItem => handleHistorySelect historyItem d
  end.

Definition run (events : list event) : dashboard :=
  fold_left step events initial.

(** The history item an event records, if it records one. *)
Definition recorded (e : event) : option json :=
  match e with
  | Send request reply startTime endTime =>
      match attempt request reply startTime endTime with
      | inr (_, item) => Some item
      | inl _ => None
      end
  | Select _ => None
  end.

(** The request the console sends for [code] when the page is in the
    state [d]: its [response] and [request] are the active ones. *)
Definition console_request (code : string) (d : dashboard)
  : option request_body :=
  Console.request_of code (activeResponse d) (activeRequest d).

End Page.

End Dashboard.

(** ** Concrete syntax of the fragment, and a host to run examples on *)

Module Demo.

Definition digits (n : Z) : string :=
  DecimalString.NilZero.string_of_int (Z.to_int n).

Fixpoint join (sep : string) (l : list string) : string :=
  match l with
  | [] => ""
  | [s] => s
  | s :: rest => s ++ sep ++ join sep rest
  end.

(** The text of an expression; string literals in single quotes. *)
Fixpoint render_expr (e : expr) : string :=
  match e with
  | ENull => "null"
  | EBool true => "true"
  | EBool false => "false"
  | ENum n => digits n
  | EStr s => "'" ++ s ++ "'"
  | EVar x => x
  | EMember o p => render_expr o ++ "." ++ p
  | EAssign o p rhs => render_expr o ++ "." ++ p ++ " = " ++ render_expr rhs
  | EAdd e1 e2 => render_expr e1 ++ " + " ++ render_expr e2
  | ECall f args =>
      render_expr f ++ "(" ++ join ", " (map render_expr args) ++ ")"
  | ENew f args =>
      "new " ++ render_expr f ++ "(" ++ join ", " (map render_expr args) ++ ")"
  end.

Fixpoint render_stmt (s : stmt) : string :=
  match s with
  | SExpr e => render_expr e ++ ";"
  | SReturn None => "return;"
  | SReturn (Some e) => "return " ++ render_expr e ++ ";"
  | SThrow e => "throw " ++ render_expr e ++ ";"
  | SWhile c body =>
      "while (" ++ render_expr c ++ ") {" ++ join " " (map render_stmt body)
        ++ "}"
  end.

Definition render (body : list stmt) : string :=
  join " " (map render_stmt body).

(** The snippets of the examples. *)
Definition console_log (s : string) : stmt :=
  SExpr (ECall (EMember (EVar "console") "log") [EStr s]).

Definition log_a_b : list stmt := [console_log "a"; console_log "b"].
Definition spin : list stmt := [SWhile (EBool true) []].
Definition return_results : list stmt := [SReturn (Some (EVar "results"))].
Definition call_fetch : list stmt := [SExpr (ECall (EVar "fetch") [EStr "x"])].
Definition call_foo : list stmt := [SExpr (ECall (EVar "foo") [EStr "x"])].
Definition return_location : list stmt :=
  [SReturn (Some (EMember (EVar "response") "location"))].
Definition increment : list stmt :=
  [SReturn (Some (EAdd (EMember (EVar "response") "a") (ENum 1)))].
Definition overwrite : list stmt :=
  [SExpr (EAssign (EVar "response") "a" (ENum 5))].
Definition return_response : list stmt := [SReturn (Some (EVar "response"))].

Definition snippets : list (list stmt) :=
  [log_a_b; spin; return_results; call_fetch; call_foo; return_location;
   increment; overwrite; return_response].

(** A parser that reads back the snippets above from their text, and
    white space as the empty body. *)
Definition parser (text : string) : parsed :=
  if Str.trim_is_empty text then Program []
  else
    match find (fun p => String.eqb (render p) text) snippets with
    | Some p => Program p
    | None => SyntaxError "Unexpected token"
    end.

(** A global scope with [undefined] and [Error], a clock that starts at
    1000 and advances by one at each reading, room for [depth] nested
    calls. *)
Definition globals (x : string) : option value :=
  if String.eqb x "undefined" then Some VUndefined
  else if String.eqb x "Error" then Some (VHost "Error")
  else None.

Definition host (depth : nat) : Host :=
  mkHost depth (fun n => 1000 + Z.of_nat n) globals parser.

Definition fresh : state := mkState [] 0.

(** The request [{ code, context: { response } }]. *)
Definition request (code : string) (response : json) : request_body :=
  Body (JObj [("code", JStr code);
              ("context", JObj [("response", response)])]).

End Demo.

(** ** Notions the statements below use *)

(** [alloc_json] on the items of an array and on the fields of an
    object. *)
Fixpoint alloc_items (items : list json) (st : state) : list value * state :=
  match items with
  | [] => ([], st)
  | i :: rest =>
      let '(v, st) := alloc_json i st in
      let '(vs, st) := alloc_items rest st in
      (v :: vs, st)
  end.

Fixpoint alloc_fields (fields : list (string * json)) (st : state)
  : list (string * value) * state :=
  match fields with
  | [] => ([], st)
  | (k, i) :: rest =>
      let '(v, st) := alloc_json i st in
      let '(props, st) := alloc_fields rest st in
      ((k, v) :: props, st)
  end.

(** [reads_as n h v j]: in the heap [h] the value [v] is the JSON value
    [j], object by object and key by key, and every object it is made of
    lies at [n] or above. *)
Inductive reads_as (n : nat) (h : list obj) : value -> json -> Prop :=
| reads_null : reads_as n h VNull JNull
| reads_bool b : reads_as n h (VBool b) (JBool b)
| reads_num z : reads_as n h (VNum z) (JNum z)
| reads_str s : reads_as n h (VStr s) (JStr s)
| reads_arr l vs items :
    (n <= l)%nat ->
    h !! l = Some (OArr vs) ->
    Forall2 (reads_as n h) vs items ->
    reads_as n h (VRef l) (JArr items)
| reads_obj l props fields :
    (n <= l)%nat ->
    h !! l = Some (OObj props) ->
    Forall2 (fun p f => fst p = fst f /\ reads_as n h (snd p) (snd f))
            props fields ->
    reads_as n h (VRef l) (JObj fields).

(** The context [POST] passes on: it reads as the [context] of the body
    when that is truthy, as [{}] otherwise, whatever the heap held. *)
Definition context_json (context : option json) : json :=
  match context with
  | Some c => if jtruthy c then c else JObj []
  | None => JObj []
  end.

(** [alloc_json] only adds objects, reads no clock, and what it returns
    reads as its argument and is made of none of the objects of the heap
    it started from. *)
Definition allocates (j : json) : Prop :=
  forall st v st',
    alloc_json j st = (v, st') ->
    (exists ext, heap st' = (heap st ++ ext)%list) /\
    reads st' = reads st /\
    reads_as (length (heap st)) (heap st') v j.

(** How [safeContext] binds [response] or [request] when the caller
    supplied [supplied] ([None]: nothing): a truthy value is bound as it
    reads in the caller's heap [h0]; otherwise the binding is an empty
    object that [h0] did not hold. *)
Definition binds (n : nat) (h0 h1 : list obj) (supplied : option json)
                 (v : value) : Prop :=
  let fresh_empty :=
    exists l, v = VRef l /\ (length h0 <= l)%nat /\ h1 !! l = Some (OObj []) in
  match supplied with
  | Some j => if jtruthy j then reads_as n h0 v j else fresh_empty
  | None => fresh_empty
  end.

(** The console object of [safeContext] as built, and as the wrapper's
    four assignments leave it. *)
Definition context_console : obj :=
  OObj [("log", VContextConsole Log); ("error", VContextConsole Error);
        ("warn", VContextConsole Warn); ("info", VContextConsole Info)].

Definition captured_console : obj :=
  OObj [("log", VCapture Log); ("error", VCapture Error);
        ("warn", VCapture Warn); ("info", VCapture Info)].

(** The eleven bindings of [safeContext]. *)
Definition bindings (response request : value) (console : loc)
  : list (string * value) :=
  [("response", response); ("request", request); ("JSON", VHost "JSON");
   ("console", VRef console); ("Object", VHost "Object");
   ("Array", VHost "Array"); ("String", VHost "String");
   ("Number", VHost "Number"); ("Date", VHost "Date");
   ("Math", VHost "Math"); ("RegExp", VHost "RegExp")].

(** The scope [prologue] leaves: [results] is the array at [S console],
    [originalConsole] the console object itself. *)
Definition wrapper_scope (response request : value) (console : loc) : scope :=
  [declarations (VRef (S console)) (VRef console);
   parameters (bindings response request console)].

(** What [func] and the [catch] of [safeEval] make of the outcome of the
    snippet: the object of the success branch; the object of the
    [catch] branch, unless reading [error.message] throws in turn, which
    the outer [catch] rewraps. *)
Definition reported (console : value) (o : outcome value)
  : outcome (list (string * value)) :=
  match o with
  | Done v st =>
      Done [("result", v); ("console", console); ("success", VBool true)] st
  | Raised error st =>
      match get_member st error "message" with
      | Done message st =>
          Done [("result", VNull); ("console", console); ("error", message);
                ("success", VBool false)] st
      | Raised error' st =>
          Raised (VError "Error"
                    ("Execution error: " ++ message_or_unknown error')) st
      | Unmodelled => Unmodelled
      | Diverged => Diverged
      end
  | Unmodelled => Unmodelled
  | Diverged => Diverged
  end.

(** The body of the reply the [catch] block of [POST] sends. *)
Definition failure_body (message : string) (timestamp : Z) : json :=
  JObj [("result", JNull); ("console", JArr []); ("error", JStr message);
        ("success", JBool false); ("executionTime", JNum 0);
        ("timestamp", JNum timestamp)].

(** The message the filter of [safeEval] refuses a text with, if it
    does. *)
Definition refusal (text : string) : option string :=
  match unsafe_keyword text with
  | Some keyword =>
      Some ("Unsafe code detected: " ++ keyword ++ " is not allowed")
  | None =>
      match unsafe_pattern text with
      | Some p => Some ("Unsafe code pattern detected: " ++ source p)
      | None => None
      end
  end.

(** The state after one reading of the clock. *)
Definition tick (st : state) : state := mkState (heap st) (S (reads st)).

(** A body whose [code] is a string that passes the three checks
    [POST] makes before it evaluates anything. *)
Definition admitted (body : json) (text : string) : Prop :=
  body <> JNull /\
  field body "code" = Some (JStr text) /\
  text <> "" /\
  Str.len text <= 10000.



(** A request whose snippet is run: the body is admitted, the filter
    lets the text through and the parser accepts it. *)
Definition is_run (H : Host) (request : request_body) : Prop :=
  exists body text program,
    request = Body body /\ admitted body text /\ refusal text = None /\
    parse H text = Program program.

(** The log entry one call of a captured method pushes. *)
Definition entry (k : kind) (args : loc) (t : Z) : obj :=
  OObj [("type", VStr (kind_name k)); ("args", VRef args);
        ("timestamp", VNum t)].

(** What [n] nested calls of the captured method [k] with the one
    argument [s] leave behind, the first at clock reading [t], when the
    heap has [base] objects: the objects they allocate (the array of the
    arguments, then the entry), the references they push on [results],
    and what the entries read as in the reply. *)
Fixpoint log_objects (H : Host) (k : kind) (s : string) (base t n : nat)
  : list obj :=
  match n with
  | O => []
  | S n =>
      OArr [VStr s] :: entry k base (now H t)
        :: log_objects H k s (S (S base)) (S t) n
  end.

Fixpoint log_refs (base n : nat) : list value :=
  match n with
  | O => []
  | S n => VRef (S base) :: log_refs (S (S base)) n
  end.

Definition entry_json (k : kind) (s : string) (t : Z) : json :=
  JObj [("type", JStr (kind_name k)); ("args", JArr [JStr s]);
        ("timestamp", JNum t)].

Fixpoint log_json (H : Host) (k : kind) (s : string) (t n : nat) : list json :=
  match n with
  | O => []
  | S n => entry_json k s (now H t) :: log_json H k s (S t) n
  end.

(** How a reply comes about: a rejection before anything is evaluated,
    the answer of the [catch] block, or the object [safeEval] returned
    with the two times added. *)
Inductive reply_of (H : Host) (request : request_body) (fuel : nat)
          (st : state) (resp : response) (st' : state) : Prop :=
| reply_rejected body message :
    request = Body body -> (body <> JNull) ->
    (forall text, ~ admitted body text) ->
    resp = rejection message -> st' = st ->
    reply_of H request fuel st resp st'
| reply_caught message t :
    resp = mkResponse 400 (failure_body message t) ->
    reply_of H request fuel st resp st'
| reply_evaluated body text c st0 result st1 fields :
    request = Body body -> admitted body text ->
    context_or_empty (field body "context") (tick st) = (c, st0) ->
    safeEval H text c fuel st0 = Done result st1 ->
    ser_props (serialize fuel (tick (tick st1)) [])
      (assoc_set "timestamp" (VNum (now H (S (reads st1))))
         (assoc_set "executionTime"
            (VNum (now H (reads st1) - now H (reads st))) result))
      = Json fields ->
    resp = mkResponse 200 (JObj fields) -> st' = tick (tick st1) ->
    reply_of H request fuel st resp st'.

(** The names a scope binds, and those of the scope a snippet runs in:
    they are the same whatever the context holds. *)
Definition names_of (sc : scope) : list string :=
  concat (map (map fst) sc).

Definition snippet_names : list string :=
  names_of (snippet_scope (wrapper_scope VUndefined VUndefined 0%nat)).

(** The literals whose value is a primitive other than [null]. *)
Definition primitive_literal (e : expr) : bool :=
  match e with
  | EBool _ | ENum _ | EStr _ => true
  | _ => false
  end.

(** Snippets that throw, and a host that reads them back. *)
Module Throws.

Definition throw_five : list stmt := [SThrow (ENum 5)].
Definition throw_null : list stmt := [SThrow ENull].
Definition throw_error : list stmt :=
  [SThrow (ENew (EVar "Error") [EStr "boom"])].

Definition snippets : list (list stmt) := [throw_five; throw_null; throw_error].

Definition parser (text : string) : parsed :=
  match find (fun p => String.eqb (Demo.render p) text) snippets with
  | Some p => Program p
  | None => SyntaxError "Unexpected token"
  end.

Definition host : Host :=
  mkHost 3%nat (fun n => 1000 + Z.of_nat n) Demo.globals parser.

Definition request (code : string) : request_body :=
  Body (JObj [("code", JStr code)]).

End Throws.

(** A text of [n] letters. *)
Fixpoint letters (n : nat) : string :=
  match n with
  | O => ""
  | S n => String "a" (letters n)
  end.

(** The number of values a JSON value is made of. *)
Fixpoint size (j : json) : nat :=
  match j with
  | JArr items => S (list_sum (map size items))
  | JObj fields => S (list_sum (map (fun f => size (snd f)) fields))
  | _ => 1
  end.

(** Names in the order [own_order] leaves them in: those that are array
    indices first and ascending. *)
Fixpoint ordered_keys (ks : list string) : bool :=
  match ks with
  | [] => true
  | k :: rest =>
      match array_index k with
      | Some n =>
          forallb (fun k' => match array_index k' with
                             | Some m => (n <? m)%N
                             | None => true
                             end) rest
      | None => forallb (fun k' => negb (is_index k')) rest
      end && ordered_keys rest
  end.

Fixpoint distinct (ks : list string) : bool :=
  match ks with
  | [] => true
  | k :: rest => negb (mem k rest) && distinct rest
  end.

(** A JSON value as [request.json()] yields it: its numbers are
    integers a double holds exactly, and the names of an object are
    distinct and in the order the engine keeps them in. *)
Fixpoint as_parsed (j : json) : bool :=
  match j with
  | JNum n => exact_integer n
  | JArr items => forallb as_parsed items
  | JObj fields =>
      distinct (map fst fields) && ordered_keys (map fst fields)
      && forallb (fun f => as_parsed (snd f)) fields
  | _ => true
  end.

(** How deep a JSON value nests. *)
Fixpoint depth (j : json) : nat :=
  match j with
  | JArr items => S (list_max (map depth items))
  | JObj fields => S (list_max (map (fun f => depth (snd f)) fields))
  | _ => O
  end.

(** No array of the heap has been given a [toJSON] of its own. *)
Definition no_array_toJSON (st : state) : Prop :=
  forall l items props,
    heap st !! l = Some (OArrP items props) -> assoc "toJSON" props = None.

(** Snippets that reach for the wrapper's log array, and a host that
    reads them back. *)
Module Tamper.

Definition drop_the_log : list stmt :=
  [SExpr (EAssign (EVar "results") "toJSON" (EMember (EVar "results") "pop"));
   SReturn (Some (ENum 1))].

Definition name_the_log : list stmt :=
  [SExpr (EAssign (EVar "results") "toJSON" (EVar "String"));
   SReturn (Some (ENum 1))].

Definition push_null : list stmt :=
  [SExpr (ECall (EMember (EVar "results") "push") [ENull]);
   SReturn (Some (ENum 1))].

Definition snippets : list (list stmt) :=
  [drop_the_log; name_the_log; push_null].

Definition parser (text : string) : parsed :=
  match find (fun p => String.eqb (Demo.render p) text) snippets with
  | Some p => Program p
  | None => SyntaxError "Unexpected token"
  end.

Definition host : Host :=
  mkHost 3%nat (fun n => 1000 + Z.of_nat n) Demo.globals parser.

Definition request (code : string) : request_body :=
  Body (JObj [("code", JStr code)]).

End Tamper.

(** [sub] occurs somewhere in [s]. *)
Definition occurs (sub s : string) : Prop :=
  exists pre post, s = pre ++ sub ++ post.





(* ================================================================= *)
(** * Properties *)

Local Open Scope list_scope.

(** ** The heap *)

Lemma alloc_spec o st :
  alloc o st = (length (heap st), mkState (heap st ++ [o]) (reads st)).
Proof. reflexivity. Qed.

Lemma lookup_snoc (h : list obj) (o : obj) : (h ++ [o]) !! length h = Some o.
Proof. by apply list_lookup_middle. Qed.

Lemma lookup_extend (h ext : list obj) (l : loc) (o : obj) :
  h !! l = Some o -> (h ++ ext) !! l = Some o.
Proof. apply lookup_app_l_Some. Qed.

(** ** JSON placed in the heap *)

Lemma json_induction (P : json -> Prop) :
  P JNull ->
  (forall b, P (JBool b)) ->
  (forall n, P (JNum n)) ->
  (forall s, P (JStr s)) ->
  (forall items, Forall P items -> P (JArr items)) ->
  (forall fields, Forall (fun f => P (snd f)) fields -> P (JObj fields)) ->
  forall j, P j.
Proof.
  intros Hnull Hbool Hnum Hstr Harr Hobj.
  fix IH 1. intros [ | b | n | s | items | fields ].
  - exact Hnull.
  - apply Hbool.
  - apply Hnum.
  - apply Hstr.
  - apply Harr. induction items as [ | i rest IHrest ].
    + constructor.
    + constructor; [ apply IH | exact IHrest ].
  - apply Hobj. induction fields as [ | [k i] rest IHrest ].
    + constructor.
    + constructor; [ apply IH | exact IHrest ].
Qed.

Lemma alloc_json_arr items st :
  alloc_json (JArr items) st =
  let '(vs, st1) := alloc_items items st in
  (VRef (length (heap st1)), mkState (heap st1 ++ [OArr vs]) (reads st1)).
Proof.
  cbn [alloc_json].
  change ((fix go (items : list json) (st : state) : list value * state :=
             match items with
             | [] => ([], st)
             | i :: rest =>
                 let '(v, st) := alloc_json i st in
                 let '(vs, st) := go rest st in
                 (v :: vs, st)
             end) items st) with (alloc_items items st).
  destruct (alloc_items items st) as [vs st1]. reflexivity.
Qed.

Lemma alloc_json_obj fields st :
  alloc_json (JObj fields) st =
  let '(props, st1) := alloc_fields fields st in
  (VRef (length (heap st1)), mkState (heap st1 ++ [OObj props]) (reads st1)).
Proof.
  cbn [alloc_json].
  change ((fix go (fields : list (string * json)) (st : state)
             : list (string * value) * state :=
             match fields with
             | [] => ([], st)
             | (k, i) :: rest =>
                 let '(v, st) := alloc_json i st in
                 let '(props, st) := go rest st in
                 ((k, v) :: props, st)
             end) fields st) with (alloc_fields fields st).
  destruct (alloc_fields fields st) as [props st1]. reflexivity.
Qed.

Lemma Forall2_with_Forall {A B : Type} (P : B -> Prop) (R R' : A -> B -> Prop)
      (xs : list A) (ys : list B) :
  Forall P ys ->
  Forall2 R xs ys ->
  (forall x y, P y -> R x y -> R' x y) ->
  Forall2 R' xs ys.
Proof.
  intros HP HR Himp. induction HR as [ | x y xs ys Hxy _ IH ].
  - constructor.
  - inversion HP; subst. constructor; [ by apply Himp | by apply IH ].
Qed.

(** What a value reads as does not change when the heap grows, nor
    when the bound on its objects is lowered. *)
Lemma reads_as_weaken (n n' : nat) (h ext : list obj) (j : json) :
  (n <= n')%nat ->
  forall v, reads_as n' h v j -> reads_as n (h ++ ext) v j.
Proof.
  intros Hn.
  induction j as [ | b | z | s | items IH | fields IH ] using json_induction;
    intros v Hr; inversion Hr; subst; try constructor.
  - eapply reads_arr; [ lia | by apply lookup_extend | ].
    eapply Forall2_with_Forall; [ exact IH | eassumption | ].
    intros x y Hy Hxy. by apply Hy.
  - eapply reads_obj; [ lia | by apply lookup_extend | ].
    eapply Forall2_with_Forall; [ exact IH | eassumption | ].
    intros x y Hy [Hk Hxy]. split; [ exact Hk | by apply Hy ].
Qed.

Lemma reads_as_extend (n : nat) (h ext : list obj) (j : json) (v : value) :
  reads_as n h v j -> reads_as n (h ++ ext) v j.
Proof. by apply reads_as_weaken. Qed.

Lemma alloc_items_spec items :
  Forall allocates items ->
  forall st vs st',
    alloc_items items st = (vs, st') ->
    (exists ext, heap st' = heap st ++ ext) /\
    reads st' = reads st /\
    Forall2 (reads_as (length (heap st)) (heap st')) vs items.
Proof.
  induction 1 as [ | i rest Hi _ IH ]; intros st vs st' Heq; cbn in Heq.
  - injection Heq as <- <-. split; [ exists []; by rewrite app_nil_r | ].
    split; [ reflexivity | constructor ].
  - destruct (alloc_json i st) as [v st1] eqn:Ei.
    destruct (alloc_items rest st1) as [vs' st2] eqn:Er.
    injection Heq as <- <-.
    destruct (Hi _ _ _ Ei) as ([e1 H1] & R1 & A1).
    destruct (IH _ _ _ Er) as ([e2 H2] & R2 & A2).
    split; [ exists (e1 ++ e2); by rewrite H2, H1, app_assoc | ].
    split; [ congruence | ].
    constructor.
    + rewrite H2. by apply reads_as_extend.
    + eapply Forall2_impl; [ exact A2 | ].
      intros x y Hxy. rewrite <- (app_nil_r (heap st2)).
      eapply reads_as_weaken; [ | exact Hxy ]. rewrite H1, length_app. lia.
Qed.

Lemma alloc_fields_spec fields :
  Forall (fun f => allocates (snd f)) fields ->
  forall st props st',
    alloc_fields fields st = (props, st') ->
    (exists ext, heap st' = heap st ++ ext) /\
    reads st' = reads st /\
    Forall2 (fun p f => fst p = fst f /\
                        reads_as (length (heap st)) (heap st') (snd p) (snd f))
            props fields.
Proof.
  induction 1 as [ | [k i] rest Hi _ IH ]; intros st props st' Heq; cbn in Heq.
  - injection Heq as <- <-. split; [ exists []; by rewrite app_nil_r | ].
    split; [ reflexivity | constructor ].
  - destruct (alloc_json i st) as [v st1] eqn:Ei.
    destruct (alloc_fields rest st1) as [props' st2] eqn:Er.
    injection Heq as <- <-.
    destruct (Hi _ _ _ Ei) as ([e1 H1] & R1 & A1).
    destruct (IH _ _ _ Er) as ([e2 H2] & R2 & A2).
    split; [ exists (e1 ++ e2); by rewrite H2, H1, app_assoc | ].
    split; [ congruence | ].
    constructor.
    + split; [ reflexivity | ]. cbn. rewrite H2. by apply reads_as_extend.
    + eapply Forall2_impl; [ exact A2 | ].
      intros x y [Hk Hxy]. split; [ exact Hk | ].
      rewrite <- (app_nil_r (heap st2)).
      eapply reads_as_weaken; [ | exact Hxy ]. rewrite H1, length_app. lia.
Qed.

Lemma alloc_json_spec (j : json) : allocates j.
Proof.
  induction j as [ | b | n | s | items IH | fields IH ] using json_induction;
    intros st v st' Heq.
  1-4: cbn in Heq; injection Heq as <- <-;
       (split; [ exists []; by rewrite app_nil_r | ]);
       (split; [ reflexivity | constructor ]).
  - rewrite alloc_json_arr in Heq.
    destruct (alloc_items items st) as [vs st1] eqn:Ei.
    injection Heq as <- <-.
    destruct (alloc_items_spec _ IH _ _ _ Ei) as ([e H1] & R1 & A1).
    cbn [heap reads].
    split; [ exists (e ++ [OArr vs]); by rewrite H1, app_assoc | ].
    split; [ exact R1 | ].
    eapply reads_arr; [ rewrite H1, length_app; lia | apply lookup_snoc | ].
    eapply Forall2_impl; [ exact A1 | ].
    intros x y Hxy. by apply reads_as_extend.
  - rewrite alloc_json_obj in Heq.
    destruct (alloc_fields fields st) as [props st1] eqn:Ei.
    injection Heq as <- <-.
    destruct (alloc_fields_spec _ IH _ _ _ Ei) as ([e H1] & R1 & A1).
    cbn [heap reads].
    split; [ exists (e ++ [OObj props]); by rewrite H1, app_assoc | ].
    split; [ exact R1 | ].
    eapply reads_obj; [ rewrite H1, length_app; lia | apply lookup_snoc | ].
    eapply Forall2_impl; [ exact A1 | ].
    intros x y [Hk Hxy]. split; [ exact Hk | by apply reads_as_extend ].
Qed.

(** Truthiness is that of the JSON value. *)
Lemma reads_as_truthy n h v j : reads_as n h v j -> truthy v = jtruthy j.
Proof. by destruct 1. Qed.

(** Keys correspond. *)
Lemma reads_as_assoc n h k props fields :
  Forall2 (fun p f => fst p = fst f /\ reads_as n h (snd p) (snd f))
          props fields ->
  match assoc k fields with
  | Some j => exists v, assoc k props = Some v /\ reads_as n h v j
  | None => assoc k props = None
  end.
Proof.
  induction 1 as [ | [k1 v1] [k2 j2] props fields [Hk Hv] _ IH ]; cbn.
  - reflexivity.
  - cbn in Hk, Hv. subst k2. destruct (String.eqb k k1).
    + by exists v1.
    + exact IH.
Qed.

(** ** The capability context *)

(** Reading [response] or [request] off a truthy value parsed from
    JSON. *)
Lemma get_member_context n h c cj p st :
  reads_as n h c cj ->
  jtruthy cj = true ->
  p = "response"%string \/ p = "request"%string ->
  (exists ext, heap st = h ++ ext) ->
  exists w,
    get_member st c p = Done w st /\
    match field cj p with
    | Some j => reads_as n h w j
    | None => w = VUndefined
    end.
Proof.
  intros Hr Ht Hp [ext Hext].
  destruct Hr as [ | b | z | s | l vs items _ Hl Hvs | l props fields _ Hl Hps ];
    try discriminate Ht.
  1-3: exists VUndefined; destruct Hp as [-> | ->]; by split.
  - exists VUndefined. cbn [get_member field].
    rewrite Hext, (lookup_extend _ ext _ _ Hl).
    destruct Hp as [-> | ->]; by split.
  - cbn [get_member field]. rewrite Hext, (lookup_extend _ ext _ _ Hl).
    pose proof (reads_as_assoc n h p props fields Hps) as Ha.
    destruct (assoc p fields) as [j | ].
    + destruct Ha as (v & -> & Hv). by exists v.
    + rewrite Ha. exists VUndefined. destruct Hp as [-> | ->]; by split.
Qed.


(** One binding of [safeContext]: [w] is what the member read gave. *)
Lemma or_empty_object_binds n h0 supplied w st ext :
  heap st = h0 ++ ext ->
  match supplied with
  | Some j => reads_as n h0 w j
  | None => w = VUndefined
  end ->
  exists v ext',
    or_empty_object w st = (v, mkState (h0 ++ ext') (reads st)) /\
    (exists more, ext' = ext ++ more) /\
    (truthy w = true -> v = w) /\
    forall tail, binds n h0 (h0 ++ ext' ++ tail) supplied v.
Proof.
  intros Hh Hw.
  assert (Hfresh : truthy w = false ->
            exists v ext',
              or_empty_object w st = (v, mkState (h0 ++ ext') (reads st)) /\
              (exists more, ext' = ext ++ more) /\
              (truthy w = true -> v = w) /\
              forall tail,
                exists l, v = VRef l /\ (length h0 <= l)%nat /\
                          (h0 ++ ext' ++ tail) !! l = Some (OObj [])).
  { intros Hf. exists (VRef (length (heap st))), (ext ++ [OObj []]).
    unfold or_empty_object. rewrite Hf, alloc_spec, Hh, <- app_assoc.
    split; [ reflexivity | ]. split; [ by exists [OObj []] | ].
    split; [ congruence | ].
    intros tail. eexists; split; [ reflexivity | ].
    split; [ rewrite length_app; lia | ].
    rewrite !app_assoc, <- (app_assoc _ [OObj []] tail).
    by apply list_lookup_middle. }
  destruct (truthy w) eqn:Ht.
  - exists w, ext. unfold or_empty_object. rewrite Ht, <- Hh.
    split; [ by destruct st | ]. split; [ exists []; by rewrite app_nil_r | ].
    split; [ done | ].
    intros tail. unfold binds. destruct supplied as [j | ].
    + by rewrite <- (reads_as_truthy _ _ _ _ Hw), Ht.
    + by subst w.
  - destruct (Hfresh eq_refl) as (v & ext' & E & M & A & F).
    exists v, ext'. repeat split; try assumption.
    intros tail. unfold binds. destruct supplied as [j | ].
    + rewrite <- (reads_as_truthy _ _ _ _ Hw), Ht. apply F.
    + apply F.
Qed.

(** A member read that succeeds gives the same value in a larger
    heap. *)
Lemma get_member_extend st st' ext c p w :
  heap st' = heap st ++ ext ->
  get_member st c p = Done w st ->
  get_member st' c p = Done w st'.
Proof.
  intros Hext. unfold get_member. destruct c; try discriminate.
  - destruct (mem p plain_names); [ | discriminate ]. by intros [= <-].
  - destruct (mem p plain_names); [ | discriminate ]. by intros [= <-].
  - destruct (mem p plain_names); [ | discriminate ]. by intros [= <-].
  - destruct (heap st !! l) as [o | ] eqn:El; [ | discriminate ].
    rewrite Hext, (lookup_extend _ ext _ _ El).
    destruct o as [props | items | items props].
    + destruct (assoc p props); [ by intros [= <-] | ].
      destruct (mem p object_prototype_members); [ discriminate | ].
      by intros [= <-].
    + unfold array_member. repeat case_match; try discriminate;
        by intros [= <-].
    + unfold array_member. repeat case_match; try discriminate;
        by intros [= <-].
  - destruct (String.eqb p "message"); [ by intros [= <-] | ].
    destruct (String.eqb p "name"); [ | discriminate ]. by intros [= <-].
  - destruct (mem p plain_names); [ | discriminate ]. by intros [= <-].
  - destruct (mem p plain_names); [ | discriminate ]. by intros [= <-].
Qed.

(** [safeContext] on a truthy value that reads as [cj]: it completes
    with the eleven bindings, the console object allocated last; a
    truthy [context.response] or [context.request] is bound as it is,
    without a copy. *)
Lemma safeContext_spec n c cj st :
  reads_as n (heap st) c cj ->
  jtruthy cj = true ->
  exists response request ext,
    safeContext c st =
      Done (bindings response request (length (heap st ++ ext)))
           (mkState ((heap st ++ ext) ++ [context_console]) (reads st)) /\
    binds n (heap st) (heap st ++ ext) (field cj "response") response /\
    binds n (heap st) (heap st ++ ext) (field cj "request") request /\
    (forall r, get_member st c "response" = Done r st ->
               truthy r = true -> response = r) /\
    (forall q, get_member st c "request" = Done q st ->
               truthy q = true -> request = q).
Proof.
  intros Hr Ht. unfold safeContext.
  destruct (get_member_context _ _ _ _ "response" st Hr Ht) as (r & Er & Hrj);
    [ by left | exists []; by rewrite app_nil_r | ].
  rewrite Er. cbn [bind].
  destruct (or_empty_object_binds n (heap st) (field cj "response") r st [])
    as (v1 & e1 & -> & _ & A1 & B1); [ by rewrite app_nil_r | exact Hrj | ].
  destruct (get_member_context _ _ _ _ "request"
              (mkState (heap st ++ e1) (reads st)) Hr Ht)
    as (q & Eq & Hqj); [ by right | by exists e1 | ].
  rewrite Eq. cbn [bind].
  destruct (or_empty_object_binds n (heap st) (field cj "request") q
              (mkState (heap st ++ e1) (reads st)) e1)
    as (v2 & e2 & -> & [more ->] & A2 & B2); [ reflexivity | exact Hqj | ].
  exists v1, v2, (e1 ++ more). rewrite alloc_spec. cbn [heap reads].
  split; [ reflexivity | ]. split; [ exact (B1 more) | ].
  split; [ specialize (B2 []); by rewrite app_nil_r in B2 | ].
  split.
  - intros r' Er' Hr'. injection Er' as <-. by apply A1.
  - intros q' Eq' Hq'.
    rewrite (get_member_extend st (mkState (heap st ++ e1) (reads st)) e1
               _ _ _ eq_refl Eq') in Eq.
    injection Eq as <-. by apply A2.
Qed.

Lemma context_or_empty_spec context st c st0 :
  context_or_empty context st = (c, st0) ->
  (exists ext, heap st0 = heap st ++ ext) /\
  reads st0 = reads st /\
  reads_as (length (heap st)) (heap st0) c (context_json context) /\
  jtruthy (context_json context) = true.
Proof.
  assert (Hempty : forall c st0,
            (let (l, st1) := alloc (OObj []) st in (VRef l, st1)) = (c, st0) ->
            (exists ext, heap st0 = heap st ++ ext) /\
            reads st0 = reads st /\
            reads_as (length (heap st)) (heap st0) c (JObj []) /\
            jtruthy (JObj []) = true).
  { intros c' st' Heq. rewrite alloc_spec in Heq. injection Heq as <- <-.
    cbn [heap reads]. split; [ by eexists | ]. split; [ reflexivity | ].
    split; [ | reflexivity ].
    eapply reads_obj; [ lia | apply lookup_snoc | constructor ]. }
  unfold context_or_empty, context_json.
  destruct context as [cj | ]; [ | apply Hempty ].
  destruct (jtruthy cj) eqn:Ht; [ | apply Hempty ].
  intros Heq. destruct (alloc_json_spec cj _ _ _ Heq) as (E & R & A).
  by repeat split.
Qed.

(** ** The wrapper *)

Lemma lookup_0 (h : list obj) o rest : (h ++ o :: rest) !! length h = Some o.
Proof. by apply list_lookup_middle. Qed.

Lemma lookup_1 (h : list obj) a o rest :
  (h ++ a :: o :: rest) !! S (length h) = Some o.
Proof.
  change (h ++ a :: o :: rest) with (h ++ [a] ++ o :: rest).
  rewrite app_assoc. apply list_lookup_middle. rewrite length_app. cbn. lia.
Qed.

Lemma insert_0 (h : list obj) o x rest :
  <[length h := x]> (h ++ o :: rest) = h ++ x :: rest.
Proof.
  replace (length h) with (length h + 0)%nat by lia. by rewrite insert_app_r.
Qed.

Lemma insert_1 (h : list obj) a o x rest :
  <[S (length h) := x]> (h ++ a :: o :: rest) = h ++ a :: x :: rest.
Proof.
  replace (S (length h)) with (length h + 1)%nat by lia.
  by rewrite insert_app_r.
Qed.

Ltac heap_step :=
  rewrite ?lookup_0, ?lookup_1; cbn; unfold store; cbn [heap reads];
  rewrite ?insert_0, ?insert_1.

(** The statements before the [try] replace the four methods of the
    console object and leave [results] empty right after it. *)
Lemma prologue_spec H response request h n :
  prologue H (bindings response request (length h))
           (mkState (h ++ [context_console]) n) =
  Done (wrapper_scope response request (length h))
       (mkState (h ++ [captured_console; OArr []]) n).
Proof.
  unfold prologue. rewrite alloc_spec. cbn [heap reads].
  rewrite <- app_assoc, length_app. cbn [app length].
  replace (length h + 1)%nat with (S (length h)) by lia.
  unfold resolve, context_console. cbn.
  do 4 heap_step. reflexivity.
Qed.

(** ** [safeEval], case by case *)

Section SafeEval.

Context (H : Host).

(** A snippet the filter lets through and the parser accepts runs in the
    wrapper's scope, over the heap the context and the prologue left. *)
Lemma safeEval_admitted text body c cj fuel st n :
  reads_as n (heap st) c cj ->
  jtruthy cj = true ->
  unsafe_keyword text = None ->
  unsafe_pattern text = None ->
  parse H text = Program body ->
  exists response request ext,
    binds n (heap st) (heap st ++ ext) (field cj "response") response /\
    binds n (heap st) (heap st ++ ext) (field cj "request") request /\
    safeEval H text c fuel st =
      reported (VRef (S (length (heap st ++ ext))))
        (run_snippet H
           (wrapper_scope response request (length (heap st ++ ext)))
           body fuel
           (mkState ((heap st ++ ext) ++ [captured_console; OArr []])
                    (reads st))).
Proof.
  intros Hr Ht Hk Hp Hparse.
  destruct (safeContext_spec n c cj st Hr Ht)
    as (response & request & ext & Hctx & B1 & B2 & _).
  exists response, request, ext. split; [ exact B1 | ]. split; [ exact B2 | ].
  unfold safeEval. rewrite Hctx. cbn [bind]. rewrite Hk, Hp, Hparse.
  unfold func. rewrite prologue_spec. cbn [bind].
  destruct (run_snippet H _ body fuel _) as [v st1 | e st1 | | ];
    try reflexivity.
  cbn. destruct (get_member st1 e "message") as [m st2 | e' st2 | | ];
    reflexivity.
Qed.

(** A snippet whose text holds a keyword of the list is not run. *)
Lemma safeEval_keyword text keyword c cj fuel st n :
  reads_as n (heap st) c cj ->
  jtruthy cj = true ->
  unsafe_keyword text = Some keyword ->
  exists ext,
    safeEval H text c fuel st =
      Raised (VError "Error"
                ("Unsafe code detected: " ++ keyword ++ " is not allowed"))
             (mkState (heap st ++ ext) (reads st)).
Proof.
  intros Hr Ht Hk.
  destruct (safeContext_spec n c cj st Hr Ht)
    as (response & request & ext & Hctx & _).
  exists (ext ++ [context_console]).
  unfold safeEval. rewrite Hctx. cbn [bind]. rewrite Hk.
  by rewrite app_assoc.
Qed.

Lemma safeEval_pattern text p c cj fuel st n :
  reads_as n (heap st) c cj ->
  jtruthy cj = true ->
  unsafe_keyword text = None ->
  unsafe_pattern text = Some p ->
  exists ext,
    safeEval H text c fuel st =
      Raised (VError "Error" ("Unsafe code pattern detected: " ++ source p))
             (mkState (heap st ++ ext) (reads st)).
Proof.
  intros Hr Ht Hk Hp.
  destruct (safeContext_spec n c cj st Hr Ht)
    as (response & request & ext & Hctx & _).
  exists (ext ++ [context_console]).
  unfold safeEval. rewrite Hctx. cbn [bind]. rewrite Hk, Hp.
  by rewrite app_assoc.
Qed.

Lemma safeEval_syntax text message c cj fuel st n :
  reads_as n (heap st) c cj ->
  jtruthy cj = true ->
  unsafe_keyword text = None ->
  unsafe_pattern text = None ->
  parse H text = SyntaxError message ->
  exists ext,
    safeEval H text c fuel st =
      Raised (VError "Error" ("Execution error: " ++ message))
             (mkState (heap st ++ ext) (reads st)).
Proof.
  intros Hr Ht Hk Hp Hparse.
  destruct (safeContext_spec n c cj st Hr Ht)
    as (response & request & ext & Hctx & _).
  exists (ext ++ [context_console]).
  unfold safeEval. rewrite Hctx. cbn [bind]. rewrite Hk, Hp, Hparse.
  by rewrite app_assoc.
Qed.

End SafeEval.

Lemma refusal_None text :
  refusal text = None ->
  unsafe_keyword text = None /\ unsafe_pattern text = None.
Proof.
  unfold refusal. destruct (unsafe_keyword text); [ discriminate | ].
  by destruct (unsafe_pattern text).
Qed.

(** ** [POST], case by case *)

Section Post.

Context (H : Host).

(** The [catch] block answers an [Error] with status 400 and the
    message. *)
Lemma caught_spec name message fuel st :
  (2 <= fuel)%nat ->
  caught H (VError name message) fuel st =
  Done (mkResponse 400 (failure_body message (now H (reads st))))
       (mkState (heap st ++ [OArr []]) (S (reads st))).
Proof.
  intros Hf. destruct fuel as [ | [ | fuel ] ]; try lia.
  unfold caught, json_response. rewrite alloc_spec. cbn.
  rewrite lookup_snoc. reflexivity.
Qed.

(** An admitted body is evaluated: the clock is read, the context
    placed in the heap, [safeEval] called. *)
Lemma POST_admitted body text fuel st :
  admitted body text ->
  POST H (Body body) fuel st =
  let (c, st0) := context_or_empty (field body "context") (tick st) in
  match
    (let* (result, st1) := safeEval H text c fuel st0 in
     json_response 200
       (assoc_set "timestamp" (VNum (now H (S (reads st1))))
          (assoc_set "executionTime"
             (VNum (now H (reads st1) - now H (reads st))) result))
       fuel (tick (tick st1)))
  with
  | Raised error st => caught H error fuel st
  | other => other
  end.
Proof.
  intros (Hnull & Hcode & Htext & Hlen).
  unfold POST. destruct body; try congruence; cbn in Hcode; try discriminate.
  cbn [field]. rewrite Hcode. cbn [missing jtruthy].
  destruct (String.eqb text "") eqn:E;
    [ apply String.eqb_eq in E; congruence | ].
  cbn [negb]. destruct (Z.ltb_spec 10000 (Str.len text)); [ lia | ].
  cbn [date_now bind]. fold (tick st).
  destruct (context_or_empty (assoc "context" fields) (tick st)) as [c st0].
  destruct (safeEval H text c fuel st0) as [result st1 | e st1 | | ];
    cbn [bind date_now]; try reflexivity.
  unfold tick. cbn [heap reads].
  destruct (json_response _ _ _ _); reflexivity.
Qed.

End Post.

(** The reply to a text the filter refuses. *)
Lemma POST_refused (H : Host) (body : json) (text message : string)
      (fuel : nat) (st : state) :
  admitted body text ->
  refusal text = Some message ->
  (2 <= fuel)%nat ->
  exists st',
    POST H (Body body) fuel st =
    Done (mkResponse 400 (failure_body message (now H (S (reads st))))) st'.
Proof.
  intros Hadm Href Hfuel. rewrite (POST_admitted H body text fuel st Hadm).
  destruct (context_or_empty (field body "context") (tick st)) as [c st0] eqn:Ec.
  destruct (context_or_empty_spec _ _ _ _ Ec) as (_ & Hreads & Hr & Ht).
  unfold refusal in Href.
  destruct (unsafe_keyword text) as [keyword | ] eqn:Ek.
  - injection Href as <-.
    destruct (safeEval_keyword H text keyword c _ fuel st0 _ Hr Ht Ek)
      as [ext ->].
    cbn [bind]. rewrite caught_spec by exact Hfuel.
    cbn [reads]. rewrite Hreads. by eexists.
  - destruct (unsafe_pattern text) as [p | ] eqn:Ep; [ | discriminate ].
    injection Href as <-.
    destruct (safeEval_pattern H text p c _ fuel st0 _ Hr Ht Ek Ep)
      as [ext ->].
    cbn [bind]. rewrite caught_spec by exact Hfuel.
    cbn [reads]. rewrite Hreads. by eexists.
Qed.

(* ================================================================= *)
(** * The claims *)

(** ** C9: empty and white-space code *)

(** C9, as stated, fails: code made of one space passes the three checks
    of [POST], is run as an empty body and answered with status 200 and
    [success: true], although the console's own test [!code.trim()]
    holds of it. *)
Lemma whitespace_code_is_run :
  Str.trim_is_empty " " = true /\
  exists st',
    POST (Demo.host 3) (Body (JObj [("code", JStr " ")])) 10 Demo.fresh =
    Done (mkResponse 200
            (JObj [("console", JArr []); ("success", JBool true);
                   ("executionTime", JNum 1); ("timestamp", JNum 1002)]))
         st'.
Proof. split; [ reflexivity | eexists; vm_compute; reflexivity ]. Qed.

(** C9, amended: a body whose [code] is the empty string is rejected by
    [POST] before anything is evaluated: the reply is the 400 rejection
    [Missing required field: code] and the state is the one [POST]
    started in (no clock read, nothing placed in the heap, for every
    fuel).  Code that is empty or white space only is never sent by the
    console component. *)
Theorem empty_code_is_rejected (H : Host) (body : json) (fuel : nat)
        (st : state) :
  field body "code" = Some (JStr "") ->
  POST H (Body body) fuel st =
    Done (rejection "Missing required field: code") st /\
  forall code response request,
    Str.trim_is_empty code = true ->
    Console.request_of code response request = None.
Proof.
  intros Hcode. split.
  - unfold POST. destruct body; try discriminate Hcode.
    cbn [field]. cbn in Hcode. by rewrite Hcode.
  - intros code response request Hblank.
    unfold Console.request_of. by rewrite Hblank.
Qed.

Lemma empty_code_is_rejected_witness :
  POST (Demo.host 3) (Body (JObj [("code", JStr "")])) 10 Demo.fresh =
    Done (rejection "Missing required field: code") Demo.fresh /\
  forall code response request,
    Str.trim_is_empty code = true ->
    Console.request_of code response request = None.
Proof.
  apply (empty_code_is_rejected (Demo.host 3) (JObj [("code", JStr "")])
           10%nat Demo.fresh).
  reflexivity.
Defined.

(** ** C4: what the filter answers *)

(** C4, as stated, fails: the reply to a snippet that calls [fetch]
    carries the filter's own message, which names the token, with status
    400; the reply to a snippet that calls a name nobody defines carries
    the message of the reference fault, with status 200. *)
Lemma filter_message_names_the_token :
  Demo.render Demo.call_fetch = "fetch('x');" /\
  Demo.render Demo.call_foo = "foo('x');" /\
  (exists st',
     POST (Demo.host 3) (Demo.request "fetch('x');" (JObj [])) 10 Demo.fresh =
     Done (mkResponse 400
             (failure_body "Unsafe code detected: fetch is not allowed" 1001))
          st') /\
  (exists st',
     POST (Demo.host 3) (Demo.request "foo('x');" (JObj [])) 10 Demo.fresh =
     Done (mkResponse 200
             (JObj [("result", JNull); ("console", JArr []);
                    ("error", JStr "foo is not defined");
                    ("success", JBool false); ("executionTime", JNum 1);
                    ("timestamp", JNum 1002)]))
          st').
Proof.
  repeat split; try reflexivity; eexists; vm_compute; reflexivity.
Qed.

(** C4, amended: a snippet whose text holds a keyword or matches a
    pattern of the filter is answered, whatever else it does, with
    status 400 and the filter's message, which names the first keyword
    (or else the first pattern) found; it is not run, the log is empty
    and the execution time 0. *)
Theorem refused_text_is_reported (H : Host) (body : json)
        (text message : string) (fuel : nat) (st : state) :
  admitted body text ->
  refusal text = Some message ->
  (2 <= fuel)%nat ->
  exists st',
    POST H (Body body) fuel st =
    Done (mkResponse 400 (failure_body message (now H (S (reads st))))) st'.
Proof. apply POST_refused. Qed.

Lemma refused_text_is_reported_witness :
  exists st',
    POST (Demo.host 3) (Demo.request "fetch('x');" (JObj [])) 10 Demo.fresh =
    Done (mkResponse 400
            (failure_body "Unsafe code detected: fetch is not allowed"
                          (now (Demo.host 3) (S (reads Demo.fresh))))) st'.
Proof.
  apply (refused_text_is_reported (Demo.host 3) _ "fetch('x');").
  - repeat split; [ discriminate | discriminate | vm_compute; discriminate ].
  - reflexivity.
  - lia.
Defined.

(** ** C5: the shape of the replies *)






(** Whatever is thrown by a member read is an [Error]. *)
Lemma get_member_raises st v p e st' :
  get_member st v p = Raised e st' -> exists name message, e = VError name message.
Proof.
  unfold get_member, array_member, TypeError. intros Hg.
  repeat case_match; try discriminate; injection Hg as <- <-; by eexists _, _.
Qed.

Section Shapes.

Context (H : Host).

Lemma safeContext_raises c st e st' :
  safeContext c st = Raised e st' -> exists name message, e = VError name message.
Proof.
  unfold safeContext. intros Hs.
  destruct (get_member st c "response") as [r st1 | e1 st1 | | ] eqn:E1;
    cbn [bind] in Hs; try discriminate.
  2: { injection Hs as <- <-. by eapply get_member_raises. }
  destruct (or_empty_object r st1) as [response st2].
  destruct (get_member st2 c "request") as [q st3 | e3 st3 | | ] eqn:E3;
    cbn [bind] in Hs; try discriminate.
  2: { injection Hs as <- <-. by eapply get_member_raises. }
  destruct (or_empty_object q st3) as [request st4].
  destruct (alloc _ st4). discriminate.
Qed.

(** Whatever [safeEval] throws is an [Error]. *)
Lemma safeEval_raises text c fuel st e st' :
  safeEval H text c fuel st = Raised e st' ->
  exists name message, e = VError name message.
Proof.
  unfold safeEval. intros Hs.
  destruct (safeContext c st) as [ctx st0 | e0 st0 | | ] eqn:E0;
    cbn [bind] in Hs; try discriminate.
  2: { injection Hs as <- <-. by eapply safeContext_raises. }
  destruct (unsafe_keyword text); [ injection Hs as <- <-; by eexists _, _ | ].
  destruct (unsafe_pattern text); [ injection Hs as <- <-; by eexists _, _ | ].
  destruct (match parse H text with
            | SyntaxError message => Raised (VError "SyntaxError" message) st0
            | Program body => func H ctx body fuel st0
            end); try discriminate.
  injection Hs as <- <-. by eexists _, _.
Qed.

(** The scope [prologue] leaves binds [results] to an array of its own. *)
Lemma prologue_Done_inv ctx st wrapper st' :
  prologue H ctx st = Done wrapper st' ->
  exists results originalConsole,
    wrapper = [declarations (VRef results) originalConsole; parameters ctx].
Proof.
  unfold prologue. rewrite alloc_spec. intros Hp.
  destruct (resolve H [parameters ctx] "console" _) as [oc st1 | | | ];
    cbn [bind] in Hp; try discriminate.
  repeat (match type of Hp with
          | bind ?m _ = _ => destruct m; cbn [bind] in Hp; try discriminate
          end).
  injection Hp as <- <-. by eexists _, _.
Qed.


(** The [catch] block of [POST], whenever it answers an [Error]. *)
Lemma caught_Done name message fuel st resp st' :
  caught H (VError name message) fuel st = Done resp st' ->
  resp = mkResponse 400 (failure_body message (now H (reads st))).
Proof.
  destruct fuel as [ | fuel ]; [ discriminate | ].
  unfold caught, json_response. rewrite alloc_spec. cbn.
  rewrite lookup_snoc. cbn. by intros [= <- <-].
Qed.

Lemma json_response_raises status props fuel st e st' :
  json_response status props fuel st = Raised e st' ->
  exists name message, e = VError name message.
Proof.
  unfold json_response.
  destruct (ser_props _ props); try discriminate.
  intros [= <- <-]. by eexists _, _.
Qed.

End Shapes.


(** A body that is not [null] is rejected or admitted. *)
Lemma POST_rejects_or_admits H body fuel st :
  body <> JNull ->
  (exists message, POST H (Body body) fuel st = Done (rejection message) st) \/
  (exists text, admitted body text).
Proof.
  intros Hnull.
  destruct body as [ | b | n | s | items | fields ]; try congruence;
    try (left; by eexists).
  unfold POST. cbn [field].
  destruct (missing (assoc "code" fields)) eqn:Em; [ left; by eexists | ].
  destruct (assoc "code" fields) as [ [ | b | n | text | items | fs ] | ] eqn:Ec;
    try (left; by eexists).
  destruct (Z.ltb_spec 10000 (Str.len text)); [ left; by eexists | ].
  right. exists text. repeat split; try done.
  intros ->. discriminate Em.
Qed.

(** Every request whose snippet is not run is answered. *)
Lemma unrun_request_is_answered H request fuel st :
  ~ is_run H request ->
  (2 <= fuel)%nat ->
  exists resp st', POST H request fuel st = Done resp st'.
Proof.
  intros Hnot Hfuel.
  destruct request as [message | body].
  { change (POST H (BadJson message) fuel st)
      with (caught H (VError "SyntaxError" message) fuel st).
    rewrite caught_spec by exact Hfuel. by eexists _, _. }
  assert (Hbody : body = JNull \/ body <> JNull)
    by (destruct body; (by left) || (by right)).
  destruct Hbody as [-> | Hnull].
  { change (POST H (Body JNull) fuel st)
      with (caught H
              (TypeError
                 "Cannot destructure property 'code' of 'body' as it is null.")
              fuel st).
    unfold TypeError. rewrite caught_spec by exact Hfuel. by eexists _, _. }
  destruct (POST_rejects_or_admits H body fuel st Hnull)
    as [ [message ->] | [text Hadm] ]; [ by eexists _, _ | ].
  destruct (refusal text) as [message | ] eqn:Href.
  { destruct (POST_refused H body text message fuel st Hadm Href Hfuel)
      as [st' ->]. by eexists _, _. }
  destruct (parse H text) as [message | program] eqn:Hparse.
  2: { exfalso. apply Hnot. by exists body, text, program. }
  rewrite (POST_admitted H body text fuel st Hadm).
  destruct (context_or_empty (field body "context") (tick st)) as [c st0] eqn:Ec.
  destruct (context_or_empty_spec _ _ _ _ Ec) as (_ & _ & Hr & Ht).
  destruct (refusal_None _ Href) as [Hk Hp].
  destruct (safeEval_syntax H text message c _ fuel st0 _ Hr Ht Hk Hp Hparse)
    as [ext ->].
  cbn [bind]. rewrite caught_spec by exact Hfuel. by eexists _, _.
Qed.


(** No call of [POST] throws: what is thrown inside is an [Error], and
    the [catch] block answers it. *)
Lemma caught_never_throws H name message fuel st e st' :
  caught H (VError name message) fuel st <> Raised e st'.
Proof.
  destruct fuel as [ | fuel ]; [ discriminate | ].
  unfold caught, json_response. rewrite alloc_spec. cbn.
  rewrite lookup_snoc. discriminate.
Qed.

Lemma POST_never_throws H request fuel st e st' :
  POST H request fuel st <> Raised e st'.
Proof.
  destruct request as [message | body].
  { apply caught_never_throws. }
  assert (Hbody : body = JNull \/ body <> JNull)
    by (destruct body; (by left) || (by right)).
  destruct Hbody as [-> | Hnull]; [ apply caught_never_throws | ].
  destruct (POST_rejects_or_admits H body fuel st Hnull)
    as [ [message ->] | [text Hadm] ]; [ discriminate | ].
  rewrite (POST_admitted H body text fuel st Hadm).
  destruct (context_or_empty (field body "context") (tick st)) as [c st0].
  destruct (safeEval H text c fuel st0) as [result st1 | e1 st1 | | ] eqn:Es;
    cbn [bind]; try discriminate.
  2: { destruct (safeEval_raises _ _ _ _ _ _ _ Es) as (name & message & ->).
       apply caught_never_throws. }
  destruct (json_response 200 _ fuel _) as [r s | e2 s | | ] eqn:Ej;
    try discriminate.
  destruct (json_response_raises _ _ _ _ _ _ Ej) as (name & message & ->).
  apply caught_never_throws.
Qed.

(** ** C10: falsy data *)

(** C10: when [context.response] (or [context.request]) is absent or
    falsy ([null], [0], the empty string, [false]), the name resolves,
    in the scope the snippet runs in, to an empty object, one the heap
    did not hold before the call. *)
Theorem falsy_data_is_an_empty_object (H : Host) (context : option json)
        (p : string) (st : state) (c : value) (st0 : state) :
  p = "response"%string \/ p = "request"%string ->
  (forall j, field (context_json context) p = Some j -> jtruthy j = false) ->
  context_or_empty context st = (c, st0) ->
  exists ctx st1 wrapper st2 l,
    safeContext c st0 = Done ctx st1 /\
    prologue H ctx st1 = Done wrapper st2 /\
    resolve H (snippet_scope wrapper) p st2 = Done (VRef l) st2 /\
    heap st2 !! l = Some (OObj []) /\
    (length (heap st) <= l)%nat.
Proof.
  intros Hp Hfalsy Hc.
  destruct (context_or_empty_spec _ _ _ _ Hc) as ([ext0 Hext0] & _ & Hr & Ht).
  destruct (safeContext_spec _ c _ st0 Hr Ht)
    as (response & request & ext & Hctx & B1 & B2 & _).
  assert (Hfresh : forall v,
            binds (length (heap st)) (heap st0) (heap st0 ++ ext)
                  (field (context_json context) p) v ->
            exists l, v = VRef l /\ (length (heap st0) <= l)%nat /\
                      (heap st0 ++ ext) !! l = Some (OObj [])).
  { intros v. unfold binds.
    destruct (field (context_json context) p) as [j | ]; [ | done ].
    by rewrite (Hfalsy j eq_refl). }
  assert (Hlen : (length (heap st) <= length (heap st0))%nat)
    by (rewrite Hext0, length_app; lia).
  eexists _, _, _, _.
  destruct Hp as [-> | ->].
  - destruct (Hfresh response B1) as (l & -> & Hl & Hlook). exists l.
    split; [ exact Hctx | ]. split; [ apply prologue_spec | ].
    split; [ reflexivity | ]. cbn [heap].
    split; [ by apply lookup_extend | lia ].
  - destruct (Hfresh request B2) as (l & -> & Hl & Hlook). exists l.
    split; [ exact Hctx | ]. split; [ apply prologue_spec | ].
    split; [ reflexivity | ]. cbn [heap].
    split; [ by apply lookup_extend | lia ].
Qed.

Lemma falsy_data_is_an_empty_object_witness :
  Forall
    (fun falsy =>
       exists ctx st1 wrapper st2 l,
         safeContext (VRef 0)
           (mkState [OObj [("response", falsy)]] 0) = Done ctx st1 /\
         prologue (Demo.host 3) ctx st1 = Done wrapper st2 /\
         resolve (Demo.host 3) (snippet_scope wrapper) "response" st2 =
           Done (VRef l) st2 /\
         heap st2 !! l = Some (OObj []) /\
         (length (heap Demo.fresh) <= l)%nat)
    [VNull; VNum 0; VStr ""; VBool false].
Proof.
  repeat constructor.
  - apply (falsy_data_is_an_empty_object (Demo.host 3)
             (Some (JObj [("response", JNull)])) "response" Demo.fresh);
      [ by left | by intros j [= <-] | reflexivity ].
  - apply (falsy_data_is_an_empty_object (Demo.host 3)
             (Some (JObj [("response", JNum 0)])) "response" Demo.fresh);
      [ by left | by intros j [= <-] | reflexivity ].
  - apply (falsy_data_is_an_empty_object (Demo.host 3)
             (Some (JObj [("response", JStr "")])) "response" Demo.fresh);
      [ by left | by intros j [= <-] | reflexivity ].
  - apply (falsy_data_is_an_empty_object (Demo.host 3)
             (Some (JObj [("response", JBool false)])) "response" Demo.fresh);
      [ by left | by intros j [= <-] | reflexivity ].
Defined.

(** ** C3: the data the snippet is given *)

(** C3, as stated, fails: [safeContext] binds [response] to the object
    [request.json()] built from the caller's JSON, so the assignment of
    the snippet [response.a = 5;] lands in that object, here the one at
    location 0: it held [a: 1] when [safeEval] was called and holds
    [a: 5] when [POST] is done. *)
Lemma snippet_writes_to_the_callers_object :
  Demo.render Demo.overwrite = "response.a = 5;" /\
  exists st0 resp st',
    context_or_empty (Some (JObj [("response", JObj [("a", JNum 1)])]))
                     (tick Demo.fresh) = (VRef 1, st0) /\
    heap st0 !! 0%nat = Some (OObj [("a", VNum 1)]) /\
    heap st0 !! 1%nat = Some (OObj [("response", VRef 0)]) /\
    POST (Demo.host 3)
         (Demo.request "response.a = 5;" (JObj [("a", JNum 1)]))
         10 Demo.fresh = Done resp st' /\
    heap st' !! 0%nat = Some (OObj [("a", VNum 5)]) /\
    heap st' !! 0%nat <> heap st0 !! 0%nat.
Proof.
  split; [ reflexivity | ]. eexists _, _, _.
  split; [ reflexivity | ]. split; [ reflexivity | ].
  split; [ reflexivity | ]. split; [ vm_compute; reflexivity | ].
  split; [ reflexivity | discriminate ].
Qed.

(** C3, amended: the [response] and [request] values bound in the
    capability context are the very values [context.response] and
    [context.request] denote, not copies of them; what the snippet
    writes to them is written to the objects the caller of [safeEval]
    passed.  [POST] parses every body into objects of its own, so that
    the value bound reads as the JSON of the body of this call and is
    made of objects the heap did not hold before the call: no object an
    earlier evaluation wrote to is among them. *)
Theorem context_data_is_shared_with_the_caller (context : option json)
        (p : string) (j : json) (st : state) (c : value) (st0 : state)
        (ctx : list (string * value)) (st1 : state) :
  p = "response"%string \/ p = "request"%string ->
  context_or_empty context st = (c, st0) ->
  field (context_json context) p = Some j ->
  jtruthy j = true ->
  safeContext c st0 = Done ctx st1 ->
  exists r,
    get_member st0 c p = Done r st0 /\
    assoc p ctx = Some r /\
    reads_as (length (heap st)) (heap st1) r j.
Proof.
  intros Hp Hc Hfield Htruthy Hsafe.
  destruct (context_or_empty_spec _ _ _ _ Hc) as (_ & _ & Hr & Ht).
  destruct (safeContext_spec _ c _ st0 Hr Ht)
    as (response & request & ext & Hctx & _ & _ & A1 & A2).
  rewrite Hctx in Hsafe. injection Hsafe as <- <-.
  destruct (get_member_context _ _ _ _ p st0 Hr Ht Hp) as (r & Er & Hrj);
    [ exists []; by rewrite app_nil_r | ].
  rewrite Hfield in Hrj. exists r. split; [ exact Er | ].
  assert (Hr' : truthy r = true)
    by (by rewrite (reads_as_truthy _ _ _ _ Hrj)).
  cbn [heap]. split.
  - destruct Hp as [-> | ->]; cbn.
    + by rewrite (A1 r Er Hr').
    + by rewrite (A2 r Er Hr').
  - rewrite <- app_assoc. by apply reads_as_extend.
Qed.

Lemma context_data_is_shared_with_the_caller_witness :
  exists r,
    get_member (mkState [OObj [("a", VNum 1)]; OObj [("response", VRef 0)]] 0)
               (VRef 1) "response" =
      Done r (mkState [OObj [("a", VNum 1)]; OObj [("response", VRef 0)]] 0) /\
    assoc "response" (bindings (VRef 0) (VRef 2) 3%nat) = Some r /\
    reads_as (length (heap Demo.fresh))
             [OObj [("a", VNum 1)]; OObj [("response", VRef 0)]; OObj [];
              context_console]
             r (JObj [("a", JNum 1)]).
Proof.
  apply (context_data_is_shared_with_the_caller
           (Some (JObj [("response", JObj [("a", JNum 1)])])) "response"
           (JObj [("a", JNum 1)]) Demo.fresh (VRef 1)
           (mkState [OObj [("a", VNum 1)]; OObj [("response", VRef 0)]] 0)
           (bindings (VRef 0) (VRef 2) 3%nat)
           (mkState [OObj [("a", VNum 1)]; OObj [("response", VRef 0)];
                     OObj []; context_console] 0)).
  - by left.
  - reflexivity.
  - reflexivity.
  - reflexivity.
  - reflexivity.
Defined.

(** ** C6: a snippet that completes *)

(** C6, as stated, fails: the snippet [return response.location;] refers
    to no name but [response] and, run in the scope the host builds,
    completes with the value of the property; [safeEval] refuses it, its
    text holding [location]. *)
Lemma harmless_snippet_is_refused :
  Demo.render Demo.return_location = "return response.location;" /\
  let caller :=
    mkState [OObj [("location", VStr "x")]; OObj [("response", VRef 0)]] 0 in
  exists ctx st0 wrapper st1 st2,
    parse (Demo.host 3) "return response.location;" =
      Program Demo.return_location /\
    safeContext (VRef 1) caller = Done ctx st0 /\
    prologue (Demo.host 3) ctx st0 = Done wrapper st1 /\
    run_snippet (Demo.host 3) wrapper Demo.return_location 10 st1 =
      Done (VStr "x") st2 /\
    safeEval (Demo.host 3) "return response.location;" (VRef 1) 10 caller =
      Raised (VError "Error" "Unsafe code pattern detected: location") st0.
Proof.
  split; [ reflexivity | ]. eexists _, _, _, _, _.
  repeat split; vm_compute; reflexivity.
Qed.

(** C6, amended: for every snippet whose text the filter lets through
    and which, run in the scope the host builds, completes with the
    value [v], [safeEval] returns the object of the success branch:
    [success] true and [result] the value [v]. *)
Theorem completed_snippet_succeeds (H : Host) (text : string)
        (body : list stmt) (c : value) (fuel : nat) (st : state)
        (ctx : list (string * value)) (st0 : state) (wrapper : scope)
        (st1 : state) (v : value) (st2 : state) :
  refusal text = None ->
  parse H text = Program body ->
  safeContext c st = Done ctx st0 ->
  prologue H ctx st0 = Done wrapper st1 ->
  run_snippet H wrapper body fuel st1 = Done v st2 ->
  exists console,
    safeEval H text c fuel st =
    Done [("result", v); ("console", console); ("success", VBool true)] st2.
Proof.
  intros Href Hparse Hctx Hpro Hrun.
  destruct (refusal_None _ Href) as [Hk Hp].
  destruct (prologue_Done_inv _ _ _ _ _ Hpro) as (results & oc & Hw).
  exists (VRef results).
  unfold safeEval. rewrite Hctx. cbn [bind]. rewrite Hk, Hp, Hparse.
  unfold func. rewrite Hpro. cbn [bind]. rewrite Hrun. by subst wrapper.
Qed.

Lemma completed_snippet_succeeds_witness :
  exists console,
    safeEval (Demo.host 3) "return response.a + 1;" (VRef 1) 10
             (mkState [OObj [("a", VNum 1)]; OObj [("response", VRef 0)]] 0) =
    Done [("result", VNum 2); ("console", console); ("success", VBool true)]
         (mkState [OObj [("a", VNum 1)]; OObj [("response", VRef 0)];
                   OObj []; captured_console; OArr []] 0).
Proof.
  eapply (completed_snippet_succeeds (Demo.host 3) "return response.a + 1;"
            Demo.increment).
  - reflexivity.
  - reflexivity.
  - reflexivity.
  - reflexivity.
  - reflexivity.
Defined.

(** The reply to such a call, when the value and the log have a JSON
    text: status 200, [success: true] and the value under [result]. *)
Lemma success_is_replied (H : Host) (body : json) (text : string)
      (fuel : nat) (st : state) (c : value) (st0 : state)
      (v console : value) (st1 : state) (j jc : json) :
  admitted body text ->
  context_or_empty (field body "context") (tick st) = (c, st0) ->
  safeEval H text c fuel st0 =
    Done [("result", v); ("console", console); ("success", VBool true)] st1 ->
  serialize fuel (tick (tick st1)) [] (KProp "result") v = Json j ->
  serialize fuel (tick (tick st1)) [] (KProp "console") console = Json jc ->
  POST H (Body body) fuel st =
    Done (mkResponse 200
            (JObj [("result", j); ("console", jc); ("success", JBool true);
                   ("executionTime",
                    JNum (now H (reads st1) - now H (reads st)));
                   ("timestamp", JNum (now H (S (reads st1))))]))
         (tick (tick st1)).
Proof.
  intros Hadm Hc Hsafe Hv Hconsole.
  rewrite (POST_admitted H body text fuel st Hadm), Hc, Hsafe.
  cbn [bind]. unfold json_response.
  cbn [assoc_set String.eqb Ascii.eqb Bool.eqb ser_props].
  rewrite Hv, Hconsole.
  destruct fuel as [ | fuel ]; [ discriminate Hv | ]. reflexivity.
Qed.

(** ** C1: a snippet that loops *)

(** The loop [while (true) {}] outlasts every amount of fuel. *)
Lemma spin_diverges H sc depth fuel :
  forall st, exec H sc fuel depth (SWhile (EBool true) []) st = Diverged.
Proof.
  induction fuel as [ | fuel IH ]; intros st; [ reflexivity | ].
  destruct fuel as [ | fuel ]; [ reflexivity | ].
  change (exec H sc (S (S fuel)) depth (SWhile (EBool true) []) st)
    with (exec H sc (S fuel) depth (SWhile (EBool true) []) st).
  apply IH.
Qed.

Lemma run_spin_diverges H wrapper fuel st :
  run_snippet H wrapper Demo.spin fuel st = Diverged.
Proof.
  unfold run_snippet, Demo.spin. destruct fuel as [ | fuel ]; [ reflexivity | ].
  cbn [exec_list]. by rewrite spin_diverges.
Qed.

(** C1, on the code: a snippet that is the loop [while (true) {}] is
    admitted and run, and [POST] never returns: no amount of fuel is
    enough for a reply, of category Timeout or other. *)
Theorem infinite_loop_never_returns (H : Host) (body : json) (text : string)
        (fuel : nat) (st : state) :
  admitted body text ->
  refusal text = None ->
  parse H text = Program Demo.spin ->
  POST H (Body body) fuel st = Diverged.
Proof.
  intros Hadm Href Hparse. rewrite (POST_admitted H body text fuel st Hadm).
  destruct (context_or_empty (field body "context") (tick st)) as [c st0] eqn:Ec.
  destruct (context_or_empty_spec _ _ _ _ Ec) as (_ & _ & Hr & Ht).
  destruct (refusal_None _ Href) as [Hk Hp].
  destruct (safeEval_admitted H text _ c _ fuel st0 _ Hr Ht Hk Hp Hparse)
    as (response & request & ext & _ & _ & ->).
  by rewrite run_spin_diverges.
Qed.

Lemma infinite_loop_never_returns_witness :
  POST (Demo.host 3) (Demo.request "while (true) {}" (JObj [])) 1000
       Demo.fresh = Diverged.
Proof.
  apply (infinite_loop_never_returns (Demo.host 3) _ "while (true) {}").
  - repeat split; [ discriminate | discriminate | vm_compute; discriminate ].
  - reflexivity.
  - reflexivity.
Defined.

(** ** C2: the names a snippet can resolve *)

(** C2, on the code: the snippet [return results;] names none of the
    eleven bindings of the context, and yet completes: [results]
    resolves to the array the wrapper collects the log in, which comes
    back as the value. *)
Theorem wrapper_local_is_resolved (H : Host) (body : json) (text : string)
        (fuel : nat) (st : state) :
  admitted body text ->
  refusal text = None ->
  parse H text = Program Demo.return_results ->
  (3 <= fuel)%nat ->
  exists st',
    POST H (Body body) fuel st =
    Done (mkResponse 200
            (JObj [("result", JArr []); ("console", JArr []);
                   ("success", JBool true);
                   ("executionTime",
                    JNum (now H (S (reads st)) - now H (reads st)));
                   ("timestamp", JNum (now H (S (S (reads st)))))]))
         st'.
Proof.
  intros Hadm Href Hparse Hfuel.
  rewrite (POST_admitted H body text fuel st Hadm).
  destruct (context_or_empty (field body "context") (tick st)) as [c st0] eqn:Ec.
  destruct (context_or_empty_spec _ _ _ _ Ec) as (_ & Hreads & Hr & Ht).
  destruct (refusal_None _ Href) as [Hk Hp].
  destruct (safeEval_admitted H text _ c _ fuel st0 _ Hr Ht Hk Hp Hparse)
    as (response & request & ext & _ & _ & ->).
  destruct fuel as [ | [ | [ | fuel ] ] ]; try lia.
  unfold run_snippet, Demo.return_results, json_response. cbn.
  rewrite lookup_1. cbn. rewrite Hreads. by eexists.
Qed.

Lemma wrapper_local_is_resolved_witness :
  exists st',
    POST (Demo.host 3) (Demo.request "return results;" (JObj [])) 10
         Demo.fresh =
    Done (mkResponse 200
            (JObj [("result", JArr []); ("console", JArr []);
                   ("success", JBool true);
                   ("executionTime",
                    JNum (now (Demo.host 3) (S (reads Demo.fresh))
                          - now (Demo.host 3) (reads Demo.fresh)));
                   ("timestamp",
                    JNum (now (Demo.host 3) (S (S (reads Demo.fresh)))))]))
         st'.
Proof.
  apply (wrapper_local_is_resolved (Demo.host 3) _ "return results;").
  - repeat split; [ discriminate | discriminate | vm_compute; discriminate ].
  - reflexivity.
  - reflexivity.
  - lia.
Defined.

(** ** C7: the captured console *)

Section Capture.

Context (H : Host).

(** The wrapper keeps the console under [originalConsole] and then
    replaces its methods: the method it forwards to is the replacement
    itself.  A call of a captured method pushes an entry and calls
    itself, until the stack is exhausted: [n] entries for the [n] calls
    the stack still has room for, then the [RangeError]. *)
Lemma capture_overflows (sc : scope) (h : list obj) (k : kind) (s : string) :
  lookup_scope "results" sc = Some (Bound (VRef (S (length h)))) ->
  lookup_scope "originalConsole" sc = Some (Bound (VRef (length h))) ->
  forall n depth fuel text this entries objs t,
    (depth + n)%nat = stack_limit H ->
    (n < fuel)%nat ->
    call H sc fuel depth text (VCapture k) this [VStr s]
         (mkState (h ++ captured_console :: OArr entries :: objs) t) =
    Raised stack_overflow
      (mkState
         (h ++ captured_console
            :: OArr (entries ++ log_refs (S (S (length h + length objs))) n)
            :: objs
               ++ log_objects H k s (S (S (length h + length objs))) t n)
         (t + n)).
Proof.
  intros Hres Horig.
  induction n as [ | n IH ];
    intros depth fuel text this entries objs t Hdepth Hfuel;
    (destruct fuel as [ | fuel ]; [ lia | ]); cbn [call].
  - destruct (Nat.leb_spec (stack_limit H) depth); [ | lia ].
    cbn [log_refs log_objects]. by rewrite !app_nil_r, Nat.add_0_r.
  - destruct (Nat.leb_spec (stack_limit H) depth); [ lia | ].
    rewrite alloc_spec. cbn [heap reads]. unfold resolve. rewrite Hres.
    cbn [bind date_now heap reads]. rewrite alloc_spec. cbn [heap reads].
    rewrite <- !app_assoc. cbn [app].
    unfold push. cbn [heap]. rewrite lookup_1. unfold store. cbn [heap reads].
    rewrite insert_1. cbn [bind]. rewrite Horig. cbn [bind].
    unfold get_member. cbn [heap]. rewrite lookup_0.
    assert (Hk : assoc (kind_name k)
                   [("log", VCapture Log); ("error", VCapture Error);
                    ("warn", VCapture Warn); ("info", VCapture Info)] =
                 Some (VCapture k)) by (by destruct k).
    unfold captured_console at 1. rewrite Hk.
    rewrite !length_app. cbn [length bind].
    rewrite (IH (S depth) fuel _ _ _ _ (S t)) by lia.
    rewrite !length_app. cbn [length log_refs log_objects]. unfold entry.
    replace (length h + S (S (length objs + 1)))%nat
      with (S (S (S (length h + length objs)))) by lia.
    replace (length h + (length objs + 2))%nat
      with (S (S (length h + length objs))) by lia.
    replace (length h + S (S (length objs)))%nat
      with (S (S (length h + length objs))) by lia.
    replace (S t + n)%nat with (t + S n)%nat by lia.
    rewrite <- !app_assoc. reflexivity.
Qed.

(** The properties of a log entry are written out in the order the
    wrapper lists them in. *)
Lemma own_order_entry {A : Type} (a b c : A) :
  own_order [("type", a); ("args", b); ("timestamp", c)] =
  [("type", a); ("args", b); ("timestamp", c)].
Proof. reflexivity. Qed.

(** The entries read back, one [entry_json] for each. *)
Lemma serialize_log (k : kind) (s : string) (at_key : key) (results : loc)
      (r : nat) :
  forall n pre t fuel i,
    (results < length pre)%nat ->
    ser_items_from
      (serialize (S (S (S fuel)))
         (mkState (pre ++ log_objects H k s (length pre) t n) r)
         [(at_key, results)])
      i (log_refs (length pre) n) =
    Json (log_json H k s t n).
Proof.
  induction n as [ | n IH ]; intros pre t fuel i Hres; [ reflexivity | ].
  cbn [log_refs log_objects log_json ser_items_from].
  assert (E1 : (S (length pre) =? results)%nat = false)
    by (apply Nat.eqb_neq; lia).
  assert (E2 : (length pre =? S (length pre))%nat = false)
    by (apply Nat.eqb_neq; lia).
  assert (E3 : (length pre =? results)%nat = false)
    by (apply Nat.eqb_neq; lia).
  assert (Hentry :
    serialize (S (S (S fuel)))
      (mkState (pre ++ OArr [VStr s] :: entry k (length pre) (now H t)
                  :: log_objects H k s (S (S (length pre))) (S t) n) r)
      [(at_key, results)] (KIndex i) (VRef (S (length pre))) =
    Json (entry_json k s (now H t))).
  { cbn [serialize heap]. rewrite lookup_1. unfold entry.
    cbn [toJSON own_props assoc String.eqb Ascii.eqb Bool.eqb existsb snd].
    rewrite E1. rewrite own_order_entry.
    cbn [orb ser_props serialize heap]. rewrite lookup_0.
    cbn [toJSON own_props assoc existsb snd]. rewrite E2, E3. reflexivity. }
  rewrite Hentry.
  specialize (IH (pre ++ [OArr [VStr s]; entry k (length pre) (now H t)])
                 (S t) fuel (S i)).
  rewrite length_app, <- app_assoc in IH. cbn [length app] in IH.
  replace (length pre + 2)%nat with (S (S (length pre))) in IH by lia.
  rewrite IH by lia. reflexivity.
Qed.

End Capture.

(** C7, on the code: the snippet [console.log('a'); console.log('b');]
    does not yield the two entries.  Its first call never comes back:
    the captured method logs the argument and calls itself until the
    stack is exhausted, so that the log holds as many entries for ['a']
    as the stack has room for calls and none for ['b'], and the reply is
    a failure with the message of the [RangeError]. *)
Theorem logging_snippet_overflows (H : Host) (body : json) (text : string)
        (fuel : nat) (st : state) :
  admitted body text ->
  refusal text = None ->
  parse H text = Program Demo.log_a_b ->
  (stack_limit H + 6 <= fuel)%nat ->
  exists st',
    POST H (Body body) fuel st =
    Done (mkResponse 200
            (JObj [("result", JNull);
                   ("console",
                    JArr (log_json H Log "a" (S (reads st)) (stack_limit H)));
                   ("error", JStr "Maximum call stack size exceeded");
                   ("success", JBool false);
                   ("executionTime",
                    JNum (now H (S (reads st) + stack_limit H)
                          - now H (reads st)));
                   ("timestamp",
                    JNum (now H (S (S (reads st) + stack_limit H))))]))
         st'.
Proof.
  intros Hadm Href Hparse Hfuel.
  rewrite (POST_admitted H body text fuel st Hadm).
  destruct (context_or_empty (field body "context") (tick st)) as [c st0] eqn:Ec.
  destruct (context_or_empty_spec _ _ _ _ Ec) as (_ & Hreads & Hr & Ht).
  destruct (refusal_None _ Href) as [Hk Hp].
  destruct (safeEval_admitted H text _ c _ fuel st0 _ Hr Ht Hk Hp Hparse)
    as (response & request & ext & _ & _ & ->).
  set (h := heap st0 ++ ext).
  destruct fuel as [ | [ | [ | [ | [ | fuel ] ] ] ] ]; try lia.
  assert (Hrun :
    run_snippet H (wrapper_scope response request (length h)) Demo.log_a_b
      (S (S (S (S (S fuel)))))
      (mkState (h ++ [captured_console; OArr []]) (reads st0)) =
    Raised stack_overflow
      (mkState
         (h ++ captured_console
            :: OArr ([] ++ log_refs (S (S (length h + 0))) (stack_limit H))
            :: [] ++ log_objects H Log "a" (S (S (length h + 0))) (reads st0)
                                 (stack_limit H))
         (reads st0 + stack_limit H))).
  { unfold run_snippet, Demo.log_a_b, Demo.console_log.
    cbn [exec_list exec eval eval_args bind].
    unfold resolve at 1. cbn [lookup_scope snippet_scope wrapper_scope assoc
      declarations parameters bindings map fst snd String.eqb Ascii.eqb
      Bool.eqb bind].
    unfold get_member at 1. cbn [heap]. rewrite lookup_0.
    cbn [captured_console assoc String.eqb Ascii.eqb Bool.eqb mem existsb
           bind callee_text].
    rewrite (capture_overflows H
               (snippet_scope (wrapper_scope response request (length h)))
               h Log "a" eq_refl eq_refl
               (stack_limit H) 0 (S (S fuel)) _ _ [] [] (reads st0))
      by (cbn; lia).
    reflexivity. }
  rewrite Hrun. cbn [reported get_member stack_overflow RangeError String.eqb
                       Ascii.eqb Bool.eqb bind app].
  unfold json_response.
  remember (S (S (S (S fuel)))) as fuel' eqn:Efuel.
  cbn [assoc_set String.eqb Ascii.eqb Bool.eqb ser_props serialize existsb
         tick heap reads].
  rewrite lookup_1. subst fuel'. unfold tick, ser_items.
  cbn [heap reads toJSON own_props assoc].
  pose proof (serialize_log H Log "a" (KProp "console") (S (length h))
                (S (S (reads st0 + stack_limit H))) (stack_limit H)
                (h ++ [captured_console;
                       OArr (log_refs (S (S (length h + 0))) (stack_limit H))])
                (reads st0) (S fuel) 0) as Hlog.
  rewrite length_app, <- app_assoc in Hlog. cbn [length app] in Hlog.
  replace (length h + 2)%nat with (S (S (length h + 0))) in Hlog by lia.
  rewrite Hlog by lia.
  rewrite Hreads. cbn [tick reads]. by eexists.
Qed.

Lemma logging_snippet_overflows_witness :
  exists st',
    POST (Demo.host 3)
         (Demo.request "console.log('a'); console.log('b');" (JObj []))
         10 Demo.fresh =
    Done (mkResponse 200
            (JObj [("result", JNull);
                   ("console",
                    JArr (log_json (Demo.host 3) Log "a"
                            (S (reads Demo.fresh))
                            (stack_limit (Demo.host 3))));
                   ("error", JStr "Maximum call stack size exceeded");
                   ("success", JBool false);
                   ("executionTime",
                    JNum (now (Demo.host 3)
                              (S (reads Demo.fresh) + stack_limit (Demo.host 3))
                          - now (Demo.host 3) (reads Demo.fresh)));
                   ("timestamp",
                    JNum (now (Demo.host 3)
                              (S (S (reads Demo.fresh)
                                  + stack_limit (Demo.host 3)))))]))
         st'.
Proof.
  apply (logging_snippet_overflows (Demo.host 3) _
           "console.log('a'); console.log('b');").
  - repeat split; [ discriminate | discriminate | vm_compute; discriminate ].
  - reflexivity.
  - reflexivity.
  - cbn. lia.
Defined.

(** The reply of the example, written out: three entries for ['a'], none
    for ['b']. *)
Example log_of_the_example :
  log_json (Demo.host 3) Log "a" 1 3 =
  [entry_json Log "a" 1001; entry_json Log "a" 1002; entry_json Log "a" 1003].
Proof. reflexivity. Qed.

(** ** C8: the entry for the returned value *)











(** The console output of that reply, written out. *)
Example output_of_the_example :
  Console.consoleOutput (fun n : nat => 2000 + Z.of_nat n)
    (JObj [("result", JNum 2);
           ("console", JArr [entry_json Warn "careful" 1001]);
           ("success", JBool true); ("executionTime", JNum 1);
           ("timestamp", JNum 1002)]) =
  [entry_json Warn "careful" 1001; Console.result_entry (JNum 2) 2000].
Proof. reflexivity. Qed.

(* ================================================================= *)
(** * Further properties of the service *)

(** ** What running a snippet keeps *)
















Section Keeps.

Context (H : Host).






End Keeps.

(** ** The anatomy of a reply *)

Section Anatomy.

Context (H : Host).





End Anatomy.



Lemma no_array_toJSON_tick st : no_array_toJSON (tick st) <-> no_array_toJSON st.
Proof. done. Qed.


Lemma admitted_unique body text text' :
  admitted body text -> admitted body text' -> text = text'.
Proof. intros (_ & E & _) (_ & E' & _). congruence. Qed.

Lemma POST_Done_cases H request fuel st resp st' :
  POST H request fuel st = Done resp st' ->
  reply_of H request fuel st resp st'.
Proof.
  intros Hpost.
  destruct request as [message | body].
  { change (caught H (VError "SyntaxError" message) fuel st = Done resp st')
      in Hpost.
    apply caught_Done in Hpost. by eapply reply_caught. }
  assert (Hbody : body = JNull \/ body <> JNull)
    by (destruct body; (by left) || (by right)).
  destruct Hbody as [-> | Hnull].
  { change (caught H
              (TypeError
                 "Cannot destructure property 'code' of 'body' as it is null.")
              fuel st = Done resp st') in Hpost.
    apply caught_Done in Hpost. by eapply reply_caught. }
  destruct (POST_rejects_or_admits H body fuel st Hnull)
    as [ [message Hrej] | [text Hadm] ].
  { assert (Hnot : forall text, ~ admitted body text).
    { intros text Hadm.
      rewrite (POST_admitted H body text fuel st Hadm) in Hrej.
      destruct (context_or_empty (field body "context") (tick st))
        as [c st0].
      destruct (safeEval H text c fuel st0) as [result st1 | e st1 | | ] eqn:Es;
        cbn [bind] in Hrej; try discriminate.
      2: { destruct (safeEval_raises _ _ _ _ _ _ _ Es) as (n & m & ->).
           apply caught_Done in Hrej. discriminate Hrej. }
      destruct (json_response 200 _ fuel _) as [r s | e s | | ] eqn:Ej;
        try discriminate.
      2: { destruct (json_response_raises _ _ _ _ _ _ Ej) as (n & m & ->).
           apply caught_Done in Hrej. discriminate Hrej. }
      unfold json_response in Ej. destruct (ser_props _ _); try discriminate.
      injection Ej as <- _. discriminate Hrej. }
    rewrite Hrej in Hpost. injection Hpost as <- <-.
    by eapply reply_rejected. }
  rewrite (POST_admitted H body text fuel st Hadm) in Hpost.
  destruct (context_or_empty (field body "context") (tick st))
    as [c st0] eqn:Ec.
  destruct (safeEval H text c fuel st0) as [result st1 | e st1 | | ] eqn:Es;
    cbn [bind] in Hpost; try discriminate.
  2: { destruct (safeEval_raises _ _ _ _ _ _ _ Es) as (n & m & ->).
       apply caught_Done in Hpost. by eapply reply_caught. }
  destruct (json_response 200 _ fuel _) as [r s | e s | | ] eqn:Ej;
    try discriminate.
  2: { destruct (json_response_raises _ _ _ _ _ _ Ej) as (n & m & ->).
       apply caught_Done in Hpost. by eapply reply_caught. }
  injection Hpost as -> ->.
  unfold json_response in Ej.
  destruct (ser_props _ _) as [fields | | | | ] eqn:Esp; try discriminate.
  injection Ej as <- <-.
  by eapply reply_evaluated.
Qed.

(** ** X1: what the filter looks for *)

Lemma prefix_spec (sub s : string) :
  String.prefix sub s = true <-> exists post, s = (sub ++ post)%string.
Proof.
  revert s. induction sub as [ | c sub IH ]; intros s.
  - split; [ intros _; by exists s | by destruct s ].
  - destruct s as [ | d s ]; cbn;
      [ split; [ done | by intros [post [=]] ] | ].
    destruct (Ascii.ascii_dec c d) as [-> | Hne].
    + rewrite IH. split; intros [post Hpost]; exists post; congruence.
    + split; [ done | ]. intros [post [= Hcd _]]. congruence.
Qed.

Lemma includes_spec (s sub : string) :
  Str.includes s sub = true <-> occurs sub s.
Proof.
  unfold occurs. induction s as [ | c s IH ]; cbn [Str.includes].
  - rewrite orb_false_r, prefix_spec. split.
    + intros [post Hpost]. by exists ""%string, post.
    + intros (pre & post & Heq). destruct pre; [ by exists post | discriminate ].
  - rewrite orb_true_iff, prefix_spec, IH. split.
    + intros [ [post Hpost] | (pre & post & Heq) ].
      * by exists ""%string, post.
      * exists (String c pre), post. cbn. by rewrite Heq.
    + intros (pre & post & Heq). destruct pre as [ | d pre ].
      * left. by exists post.
      * right. cbn in Heq. injection Heq as -> ->. by exists pre, post.
Qed.

Lemma find_is_None {A : Type} (f : A -> bool) (l : list A) :
  find f l = None <-> forall x, In x l -> f x = false.
Proof.
  induction l as [ | a l IH ]; cbn; [ by split | ].
  destruct (f a) eqn:Ea.
  - split; [ done | ]. intros Hall. specialize (Hall a (or_introl eq_refl)).
    congruence.
  - rewrite IH. split.
    + intros Hall x [<- | Hx]; [ exact Ea | by apply Hall ].
    + intros Hall x Hx. apply Hall. by right.
Qed.

(** X1: the filter of [safeEval] lets a text through exactly when none
    of the listed keywords and none of the texts the listed patterns
    match occurs anywhere in it, be it inside a longer word, a string
    literal or a comment. *)
Theorem filter_is_a_substring_search (text : string) :
  refusal text = None <->
  (forall keyword, In keyword dangerousKeywords -> ~ occurs keyword text) /\
  (forall p, In p dangerousPatterns -> ~ occurs (literal p) text).
Proof.
  assert (Hk : unsafe_keyword text = None <->
               forall keyword, In keyword dangerousKeywords ->
                               ~ occurs keyword text).
  { unfold unsafe_keyword. rewrite find_is_None. split; intros Hall k Hin.
    - rewrite <- includes_spec, (Hall k Hin). discriminate.
    - specialize (Hall k Hin). rewrite <- includes_spec in Hall.
      by destruct (Str.includes text k). }
  assert (Hp : unsafe_pattern text = None <->
               forall p, In p dangerousPatterns -> ~ occurs (literal p) text).
  { unfold unsafe_pattern, test. rewrite find_is_None.
    split; intros Hall p Hin.
    - rewrite <- includes_spec, (Hall p Hin). discriminate.
    - specialize (Hall p Hin). rewrite <- includes_spec in Hall.
      by destruct (Str.includes text (literal p)). }
  rewrite <- Hk, <- Hp. split.
  - apply refusal_None.
  - intros [Ek Ep]. unfold refusal. by rewrite Ek, Ep.
Qed.

(** ** What every reply of [POST] has in common *)



(** The log can be missing from a reply with status 200: the wrapper's
    log array is in the snippet's scope, and a snippet that gives it
    [pop] as its [toJSON] has it written out as [undefined], that is,
    not at all. *)
Lemma log_can_be_dropped :
  exists st',
    POST Tamper.host (Tamper.request "results.toJSON = results.pop; return 1;")
         10 Demo.fresh =
    Done (mkResponse 200
            (JObj [("result", JNum 1); ("success", JBool true);
                   ("executionTime", JNum 1); ("timestamp", JNum 1002)]))
         st' /\
    ~ no_array_toJSON st'.
Proof.
  eexists. split; [ vm_compute; reflexivity | ].
  intros Hno. by specialize (Hno 4%nat [] _ eq_refl).
Qed.



(** Without that condition the field can be anything: with [String] as
    the [toJSON] of the log array it is the key, [console]. *)
Lemma log_can_be_a_string :
  exists st',
    POST Tamper.host (Tamper.request "results.toJSON = String; return 1;")
         10 Demo.fresh =
    Done (mkResponse 200
            (JObj [("result", JNum 1); ("console", JStr "console");
                   ("success", JBool true);
                   ("executionTime", JNum 1); ("timestamp", JNum 1002)]))
         st'.
Proof. eexists. vm_compute. reflexivity. Qed.



(** X4: an object that carries nothing but [error] is the reply of
    [POST] exactly to the bodies it does not admit: those without a
    [code], with one that is not a string, is empty or is longer than
    10000 characters.  Such a reply is sent before anything is
    allocated or timed. *)
Theorem bare_rejection_iff_not_admitted (H : Host) (b : json)
        (fuel : nat) (st : state) (resp : response) (st' : state) :
  b <> JNull ->
  POST H (Body b) fuel st = Done resp st' ->
  ((exists message, resp = rejection message) <->
   (forall text, ~ admitted b text)) /\
  ((exists message, resp = rejection message) -> st' = st).
Proof.
  intros Hb Hpost.
  destruct (POST_Done_cases _ _ _ _ _ _ Hpost)
    as [ b' message [= <-] _ Hnot -> ->
       | message t ->
       | b' text c st0 result st1 fields [= <-] Hadm _ _ _ -> _ ].
  - split; [ | done ]. split; [ done | ]. intros _. by exists message.
  - assert (Hno : ~ exists message', mkResponse 400 (failure_body message t)
                                     = rejection message')
      by (by intros [message' [=]]).
    split; [ | by intros Hex; destruct (Hno Hex) ].
    split; [ by intros Hex; destruct (Hno Hex) | ].
    intros Hnot.
    destruct (POST_rejects_or_admits H b fuel st Hb)
      as [ [message' Hrej] | [text Hadm] ].
    + rewrite Hrej in Hpost. injection Hpost as Hresp _.
      by exists message'.
    + destruct (Hnot text Hadm).
  - assert (Hno : ~ exists message', mkResponse 200 (JObj fields)
                                     = rejection message')
      by (by intros [message' [=]]).
    split; [ | by intros Hex; destruct (Hno Hex) ].
    split; [ by intros Hex; destruct (Hno Hex) | ].
    intros Hnot. destruct (Hnot text Hadm).
Qed.

Lemma bare_rejection_iff_not_admitted_witness :
  let b := JObj [("code", JNum 0)] in
  ((exists message, rejection "Missing required field: code"
                    = rejection message) <->
   (forall text, ~ admitted b text)) /\
  ((exists message, rejection "Missing required field: code"
                    = rejection message) -> Demo.fresh = Demo.fresh).
Proof.
  apply (bare_rejection_iff_not_admitted (Demo.host 3)
           (JObj [("code", JNum 0)]) 10 Demo.fresh).
  - discriminate.
  - reflexivity.
Defined.

(** X5: a reply of [POST] with status 400 leaves the console output of
    the component empty: the message under [error] is never among the
    entries it shows. *)
Theorem failure_status_shows_nothing (H : Host) (clock : nat -> Z)
        (request : request_body) (fuel : nat) (st : state)
        (resp : response) (st' : state) :
  POST H request fuel st = Done resp st' ->
  status resp = 400 ->
  Console.consoleOutput clock (body resp) = [].
Proof.
  intros Hpost Hstatus.
  destruct (POST_Done_cases _ _ _ _ _ _ Hpost)
    as [ b message _ _ _ -> _
       | message t ->
       | b text c st0 result st1 fields _ _ _ _ _ -> _ ].
  - reflexivity.
  - reflexivity.
  - discriminate Hstatus.
Qed.

Lemma failure_status_shows_nothing_witness :
  Console.consoleOutput (fun n => 5000 + Z.of_nat n)
    (failure_body "Unsafe code detected: eval is not allowed" 1001) = [].
Proof.
  eapply (failure_status_shows_nothing (Demo.host 3)
            (fun n => 5000 + Z.of_nat n)
            (Demo.request "return eval;" (JObj [])) 10 Demo.fresh
            (mkResponse 400
               (failure_body "Unsafe code detected: eval is not allowed"
                             1001))).
  - reflexivity.
  - reflexivity.
Defined.

(** ** Snippets that fail *)

Lemma lookup_scope_None (x : string) (sc : scope) :
  mem x (names_of sc) = false -> lookup_scope x sc = None.
Proof.
  unfold mem, names_of. induction sc as [ | f sc IH ]; [ done | ].
  cbn [map concat lookup_scope]. rewrite existsb_app, orb_false_iff.
  intros [Hf Hsc]. rewrite (IH Hsc).
  assert (Hassoc : assoc x f = None); [ | by rewrite Hassoc ].
  clear -Hf. induction f as [ | [k b] f IHf ]; [ done | ].
  cbn in Hf |- *. apply orb_false_iff in Hf as [-> Hf]. by apply IHf.
Qed.

Lemma snippet_scope_None (x : string) (r q : value) (lc : loc) :
  mem x snippet_names = false ->
  lookup_scope x (snippet_scope (wrapper_scope r q lc)) = None.
Proof. intros Hx. by apply lookup_scope_None. Qed.

(** The reply to a request whose snippet throws [v] before it has
    logged or changed anything. *)
Lemma POST_thrown (H : Host) (b : json) (text : string) (body : list stmt)
      (fuel : nat) (st : state) (v : value) :
  admitted b text ->
  refusal text = None ->
  parse H text = Program body ->
  (forall r q lc st1,
     run_snippet H (wrapper_scope r q lc) body fuel st1 = Raised v st1) ->
  exists h results,
    h !! results = Some (OArr []) /\
    POST H (Body b) fuel st =
    match
      (let* (result, st1) :=
         reported (VRef results) (Raised v (mkState h (S (reads st)))) in
       json_response 200
         (assoc_set "timestamp" (VNum (now H (S (reads st1))))
            (assoc_set "executionTime"
               (VNum (now H (reads st1) - now H (reads st))) result))
         fuel (tick (tick st1)))
    with
    | Raised error st => caught H error fuel st
    | other => other
    end.
Proof.
  intros Hadm Href Hparse Hrun.
  rewrite (POST_admitted H b text fuel st Hadm).
  destruct (context_or_empty (field b "context") (tick st)) as [c st0] eqn:Ec.
  destruct (context_or_empty_spec _ _ _ _ Ec) as (_ & Hreads & Hr & Ht).
  destruct (refusal_None _ Href) as [Hk Hp].
  destruct (safeEval_admitted H text _ c _ fuel st0 _ Hr Ht Hk Hp Hparse)
    as (response & request & ext & _ & _ & ->).
  rewrite Hrun, Hreads. cbn [tick reads].
  eexists _, _. split; [ | reflexivity ]. apply lookup_1.
Qed.

(** X6: a snippet that begins by calling a name which neither the
    scope it runs in nor the host's global scope binds is answered with
    status 200 and [success: false], the [error] being the name
    followed by [is not defined]; neither the arguments of the call nor
    the statements after it are reached. *)
Theorem unbound_name_is_reported (H : Host) (b : json) (text x : string)
        (args : list expr) (rest : list stmt) (fuel : nat) (st : state) :
  admitted b text ->
  refusal text = None ->
  parse H text = Program (SExpr (ECall (EVar x) args) :: rest) ->
  mem x snippet_names = false ->
  global_scope H x = None ->
  (4 <= fuel)%nat ->
  exists st',
    POST H (Body b) fuel st =
    Done (mkResponse 200
            (JObj [("result", JNull); ("console", JArr []);
                   ("error", JStr (x ++ " is not defined"));
                   ("success", JBool false);
                   ("executionTime",
                    JNum (now H (S (reads st)) - now H (reads st)));
                   ("timestamp", JNum (now H (S (S (reads st)))))]))
         st'.
Proof.
  intros Hadm Href Hparse Hx Hglobal Hfuel.
  destruct fuel as [ | [ | [ | [ | fuel ] ] ] ]; try lia.
  destruct (POST_thrown H b text _ (S (S (S (S fuel)))) st
              (ReferenceError (x ++ " is not defined")) Hadm Href Hparse)
    as (h & results & Hresults & ->).
  { intros r q lc st1. unfold run_snippet.
    cbn [exec_list exec eval bind]. unfold resolve.
    by rewrite (snippet_scope_None x r q lc Hx), Hglobal. }
  unfold json_response. cbn. rewrite Hresults. cbn. by eexists.
Qed.

Lemma unbound_name_is_reported_witness :
  exists st',
    POST (Demo.host 3) (Demo.request "foo('x');" (JObj [])) 10 Demo.fresh =
    Done (mkResponse 200
            (JObj [("result", JNull); ("console", JArr []);
                   ("error", JStr ("foo" ++ " is not defined"));
                   ("success", JBool false);
                   ("executionTime",
                    JNum (now (Demo.host 3) (S (reads Demo.fresh))
                          - now (Demo.host 3) (reads Demo.fresh)));
                   ("timestamp",
                    JNum (now (Demo.host 3) (S (S (reads Demo.fresh)))))]))
         st'.
Proof.
  apply (unbound_name_is_reported (Demo.host 3) _ "foo('x');" "foo"
           [EStr "x"] []).
  - repeat split; [ discriminate | discriminate | vm_compute; discriminate ].
  - reflexivity.
  - reflexivity.
  - reflexivity.
  - reflexivity.
  - lia.
Defined.

(** X7: a snippet that begins by throwing a number, a string or a
    boolean is answered with status 200 and [success: false], and the
    reply has no [error] field at all. *)
Theorem thrown_primitive_has_no_message (H : Host) (b : json)
        (text : string) (e : expr) (rest : list stmt) (fuel : nat)
        (st : state) :
  admitted b text ->
  refusal text = None ->
  parse H text = Program (SThrow e :: rest) ->
  primitive_literal e = true ->
  (3 <= fuel)%nat ->
  exists st',
    POST H (Body b) fuel st =
    Done (mkResponse 200
            (JObj [("result", JNull); ("console", JArr []);
                   ("success", JBool false);
                   ("executionTime",
                    JNum (now H (S (reads st)) - now H (reads st)));
                   ("timestamp", JNum (now H (S (S (reads st)))))]))
         st'.
Proof.
  intros Hadm Href Hparse He Hfuel.
  destruct fuel as [ | [ | [ | fuel ] ] ]; try lia.
  destruct e as [ | bl | n | s | | | | | | ]; try discriminate He.
  - destruct (POST_thrown H b text _ (S (S (S fuel))) st (VBool bl)
                Hadm Href Hparse) as (h & results & Hresults & ->);
      [ done | ].
    unfold json_response. cbn. rewrite Hresults. cbn. by eexists.
  - destruct (POST_thrown H b text _ (S (S (S fuel))) st (VNum n)
                Hadm Href Hparse) as (h & results & Hresults & ->);
      [ done | ].
    unfold json_response. cbn. rewrite Hresults. cbn. by eexists.
  - destruct (POST_thrown H b text _ (S (S (S fuel))) st (VStr s)
                Hadm Href Hparse) as (h & results & Hresults & ->);
      [ done | ].
    unfold json_response. cbn. rewrite Hresults. cbn. by eexists.
Qed.

Lemma thrown_primitive_has_no_message_witness :
  exists st',
    POST Throws.host (Throws.request "throw 5;") 10 Demo.fresh =
    Done (mkResponse 200
            (JObj [("result", JNull); ("console", JArr []);
                   ("success", JBool false);
                   ("executionTime",
                    JNum (now Throws.host (S (reads Demo.fresh))
                          - now Throws.host (reads Demo.fresh)));
                   ("timestamp",
                    JNum (now Throws.host (S (S (reads Demo.fresh)))))]))
         st'.
Proof.
  apply (thrown_primitive_has_no_message Throws.host _ "throw 5;" (ENum 5) []).
  - repeat split; [ discriminate | discriminate | vm_compute; discriminate ].
  - reflexivity.
  - reflexivity.
  - reflexivity.
  - lia.
Defined.

(** X8: a snippet that begins by throwing [null] is answered with
    status 400: reading the message of what was thrown fails inside
    [safeEval], and the reply carries the message of that failure. *)
Theorem thrown_null_is_a_failure_of_the_service (H : Host) (b : json)
        (text : string) (rest : list stmt) (fuel : nat) (st : state) :
  admitted b text ->
  refusal text = None ->
  parse H text = Program (SThrow ENull :: rest) ->
  (3 <= fuel)%nat ->
  exists st',
    POST H (Body b) fuel st =
    Done (mkResponse 400
            (failure_body
               "Execution error: Cannot read properties of null (reading 'message')"
               (now H (S (reads st)))))
         st'.
Proof.
  intros Hadm Href Hparse Hfuel.
  destruct fuel as [ | [ | [ | fuel ] ] ]; try lia.
  destruct (POST_thrown H b text _ (S (S (S fuel))) st VNull
              Hadm Href Hparse) as (h & results & Hresults & ->);
    [ done | ].
  cbn [reported get_member bind TypeError message_or_unknown].
  rewrite caught_spec by lia. by eexists.
Qed.

Lemma thrown_null_is_a_failure_of_the_service_witness :
  exists st',
    POST Throws.host (Throws.request "throw null;") 10 Demo.fresh =
    Done (mkResponse 400
            (failure_body
               "Execution error: Cannot read properties of null (reading 'message')"
               (now Throws.host (S (reads Demo.fresh)))))
         st'.
Proof.
  apply (thrown_null_is_a_failure_of_the_service Throws.host _ "throw null;"
           []).
  - repeat split; [ discriminate | discriminate | vm_compute; discriminate ].
  - reflexivity.
  - reflexivity.
  - lia.
Defined.

(** X9: a snippet that begins by throwing [new Error(m)] is answered
    with status 200 and [success: false], the [error] being [m]. *)
Theorem thrown_error_is_reported (H : Host) (b : json) (text m : string)
        (rest : list stmt) (fuel : nat) (st : state) :
  admitted b text ->
  refusal text = None ->
  parse H text = Program (SThrow (ENew (EVar "Error") [EStr m]) :: rest) ->
  global_scope H "Error" = Some (VHost "Error") ->
  (5 <= fuel)%nat ->
  exists st',
    POST H (Body b) fuel st =
    Done (mkResponse 200
            (JObj [("result", JNull); ("console", JArr []);
                   ("error", JStr m); ("success", JBool false);
                   ("executionTime",
                    JNum (now H (S (reads st)) - now H (reads st)));
                   ("timestamp", JNum (now H (S (S (reads st)))))]))
         st'.
Proof.
  intros Hadm Href Hparse Hglobal Hfuel.
  destruct fuel as [ | [ | [ | [ | [ | fuel ] ] ] ] ]; try lia.
  destruct (POST_thrown H b text _ (S (S (S (S (S fuel))))) st
              (VError "Error" m) Hadm Href Hparse)
    as (h & results & Hresults & ->).
  { intros r q lc st1. unfold run_snippet.
    cbn [exec_list exec eval eval_args bind]. unfold resolve.
    cbn [snippet_scope wrapper_scope declarations parameters bindings map
         lookup_scope assoc fst snd String.eqb Ascii.eqb Bool.eqb].
    by rewrite Hglobal. }
  unfold json_response. cbn. rewrite Hresults. cbn. by eexists.
Qed.

Lemma thrown_error_is_reported_witness :
  exists st',
    POST Throws.host (Throws.request "throw new Error('boom');") 10
         Demo.fresh =
    Done (mkResponse 200
            (JObj [("result", JNull); ("console", JArr []);
                   ("error", JStr "boom"); ("success", JBool false);
                   ("executionTime",
                    JNum (now Throws.host (S (reads Demo.fresh))
                          - now Throws.host (reads Demo.fresh)));
                   ("timestamp",
                    JNum (now Throws.host (S (S (reads Demo.fresh)))))]))
         st'.
Proof.
  apply (thrown_error_is_reported Throws.host _ "throw new Error('boom');"
           "boom" []).
  - repeat split; [ discriminate | discriminate | vm_compute; discriminate ].
  - reflexivity.
  - reflexivity.
  - reflexivity.
  - lia.
Defined.

(** X10: a text the filter lets through and the parser rejects is
    answered with status 400 and the parser's message after
    [Execution error: ]. *)
Theorem syntax_error_is_reported (H : Host) (b : json)
        (text message : string) (fuel : nat) (st : state) :
  admitted b text ->
  refusal text = None ->
  parse H text = SyntaxError message ->
  (2 <= fuel)%nat ->
  exists st',
    POST H (Body b) fuel st =
    Done (mkResponse 400
            (failure_body ("Execution error: " ++ message)
                          (now H (S (reads st)))))
         st'.
Proof.
  intros Hadm Href Hparse Hfuel.
  rewrite (POST_admitted H b text fuel st Hadm).
  destruct (context_or_empty (field b "context") (tick st)) as [c st0] eqn:Ec.
  destruct (context_or_empty_spec _ _ _ _ Ec) as (_ & Hreads & Hr & Ht).
  destruct (refusal_None _ Href) as [Hk Hp].
  destruct (safeEval_syntax H text message c _ fuel st0 _ Hr Ht Hk Hp Hparse)
    as [ext ->].
  cbn [bind]. rewrite caught_spec by exact Hfuel.
  cbn [reads]. rewrite Hreads. by eexists.
Qed.

Lemma syntax_error_is_reported_witness :
  exists st',
    POST (Demo.host 3) (Demo.request "return (;" (JObj [])) 10 Demo.fresh =
    Done (mkResponse 400
            (failure_body ("Execution error: " ++ "Unexpected token")
                          (now (Demo.host 3) (S (reads Demo.fresh)))))
         st'.
Proof.
  apply (syntax_error_is_reported (Demo.host 3) _ "return (;").
  - repeat split; [ discriminate | discriminate | vm_compute; discriminate ].
  - reflexivity.
  - reflexivity.
  - lia.
Defined.

(** X11: a request whose body is not JSON, or is the JSON value
    [null], is answered with status 400 and the full failure object,
    not with the bare [error] of the three checks; nothing is
    evaluated. *)
Theorem unreadable_body_is_a_failure (H : Host) (request : request_body)
        (fuel : nat) (st : state) :
  (forall b, request = Body b -> b = JNull) ->
  (2 <= fuel)%nat ->
  exists message st',
    POST H request fuel st =
      Done (mkResponse 400 (failure_body message (now H (reads st)))) st' /\
    (forall m, request = BadJson m -> message = m) /\
    (request = Body JNull ->
     message = "Cannot destructure property 'code' of 'body' as it is null.").
Proof.
  intros Hbody Hfuel. destruct request as [m | b].
  - change (POST H (BadJson m) fuel st)
      with (caught H (VError "SyntaxError" m) fuel st).
    rewrite caught_spec by exact Hfuel. eexists _, _.
    split; [ reflexivity | ]. split; [ by intros m' [= ->] | done ].
  - rewrite (Hbody b eq_refl).
    change (POST H (Body JNull) fuel st)
      with (caught H
              (TypeError
                 "Cannot destructure property 'code' of 'body' as it is null.")
              fuel st).
    unfold TypeError. rewrite caught_spec by exact Hfuel. eexists _, _.
    split; [ reflexivity | ]. by split.
Qed.

Lemma unreadable_body_is_a_failure_witness :
  exists message st',
    POST (Demo.host 3) (BadJson "Unexpected end of JSON input") 10 Demo.fresh =
      Done (mkResponse 400
              (failure_body message (now (Demo.host 3) (reads Demo.fresh))))
           st' /\
    (forall m, BadJson "Unexpected end of JSON input" = BadJson m ->
               message = m) /\
    (BadJson "Unexpected end of JSON input" = Body JNull ->
     message = "Cannot destructure property 'code' of 'body' as it is null.").
Proof.
  apply (unreadable_body_is_a_failure (Demo.host 3)
           (BadJson "Unexpected end of JSON input") 10 Demo.fresh).
  - discriminate.
  - lia.
Defined.

(** ** The sample scripts against the filter *)

(** X12: of the four sample scripts the console offers, the service
    refuses two once they are loaded and run: [Validate Response],
    whose text has [require] inside [requiredFields], and
    [Process Array Data], whose text has [process] inside
    [processed].  Both get status 400 and leave the console output
    empty.  The other two pass the three checks of [POST] and the
    filter. *)
Theorem two_samples_are_refused (H : Host) (clock : nat -> Z)
        (response request : option json) (fuel : nat) (st : state) :
  (2 <= fuel)%nat ->
  Forall2
    (fun s verdict =>
       exists b,
         Console.request_of (Samples.loadSample s) response request
           = Some (Body b) /\
         admitted b (Samples.code s) /\
         refusal (Samples.code s) = verdict /\
         forall message,
           verdict = Some message ->
           exists resp st',
             POST H (Body b) fuel st = Done resp st' /\
             resp = mkResponse 400
                      (failure_body message (now H (S (reads st)))) /\
             Console.consoleOutput clock (body resp) = [])
    Samples.SAMPLE_SCRIPTS
    [None;
     Some "Unsafe code detected: require is not allowed";
     Some "Unsafe code detected: process is not allowed";
     None].
Proof.
  intros Hfuel.
  assert (Hone : forall s verdict,
            Str.trim_is_empty (Samples.code s) = false ->
            Samples.code s <> "" ->
            Str.len (Samples.code s) <= 10000 ->
            refusal (Samples.code s) = verdict ->
            exists b,
              Console.request_of (Samples.loadSample s) response request
                = Some (Body b) /\
              admitted b (Samples.code s) /\
              refusal (Samples.code s) = verdict /\
              forall message,
                verdict = Some message ->
                exists resp st',
                  POST H (Body b) fuel st = Done resp st' /\
                  resp = mkResponse 400
                           (failure_body message (now H (S (reads st)))) /\
                  Console.consoleOutput clock (body resp) = []).
  { intros s verdict Htrim Hne Hlen Href.
    unfold Console.request_of, Samples.loadSample. rewrite Htrim.
    eexists. split; [ reflexivity | ].
    assert (Hadm : admitted
              (JObj [("code", JStr (Samples.code s));
                     ("context",
                      JObj [("response", Console.or_empty response);
                            ("request", Console.or_empty request)])])
              (Samples.code s)).
    { split; [ discriminate | ]. split; [ | by split ].
      unfold field. cbn [assoc]. by rewrite String.eqb_refl. }
    split; [ exact Hadm | ]. split; [ exact Href | ].
    intros message ->.
    destruct (POST_refused H _ _ message fuel st Hadm Href Hfuel)
      as [st' Hpost].
    by eexists _, st'. }
  repeat constructor; apply Hone;
    solve [ vm_compute; reflexivity | vm_compute; discriminate ].
Qed.

Lemma two_samples_are_refused_witness :
  Forall2
    (fun s verdict =>
       exists b,
         Console.request_of (Samples.loadSample s) None None
           = Some (Body b) /\
         admitted b (Samples.code s) /\
         refusal (Samples.code s) = verdict /\
         forall message,
           verdict = Some message ->
           exists resp st',
             POST (Demo.host 3) (Body b) 10 Demo.fresh = Done resp st' /\
             resp = mkResponse 400
                      (failure_body message
                         (now (Demo.host 3) (S (reads Demo.fresh)))) /\
             Console.consoleOutput (fun n => 5000 + Z.of_nat n) (body resp)
               = [])
    Samples.SAMPLE_SCRIPTS
    [None;
     Some "Unsafe code detected: require is not allowed";
     Some "Unsafe code detected: process is not allowed";
     None].
Proof.
  apply (two_samples_are_refused (Demo.host 3) (fun n => 5000 + Z.of_nat n)
           None None 10 Demo.fresh).
  lia.
Defined.

(** ** The dashboard *)

Section DashboardProperties.

Context (text_length : json -> Z).

Lemma take_cons_take {A : Type} (k : nat) (pre : list A) (x : A)
      (l : list A) :
  take (S k) (pre ++ x :: take k l) = take (S k) (pre ++ x :: l).
Proof.
  rewrite !take_app.
  destruct (S k - length pre)%nat as [ | m ] eqn:Em; [ done | ].
  cbn [take]. rewrite take_take. do 3 f_equal. lia.
Qed.

Lemma rev_omap_cons {A B : Type} (f : A -> option B) (a : A) (l : list A) :
  rev (omap f (a :: l)) =
  rev (omap f l) ++ match f a with Some b => [b] | None => [] end.
Proof. cbn. destruct (f a); cbn; [ done | by rewrite app_nil_r ]. Qed.

Lemma history_after (events : list Dashboard.event) :
  forall d,
    (length (Dashboard.requestHistory d) <= 50)%nat ->
    Dashboard.requestHistory
      (fold_left (Dashboard.step text_length) events d) =
    take 50 (rev (omap (Dashboard.recorded text_length) events)
             ++ Dashboard.requestHistory d).
Proof.
  induction events as [ | e events IH ]; intros d Hd.
  - cbn. by rewrite take_ge.
  - cbn [fold_left]. rewrite IH, rev_omap_cons, <- app_assoc.
    + destruct e as [request reply t0 t1 | item]; cbn [Dashboard.step].
      * unfold Dashboard.handleRequestSend, Dashboard.recorded.
        destruct (Dashboard.attempt text_length request reply t0 t1)
          as [ error | [response item] ]; [ done | ].
        cbn [Dashboard.requestHistory app]. apply (take_cons_take 49).
      * done.
    + destruct e as [request reply t0 t1 | item]; cbn [Dashboard.step].
      * unfold Dashboard.handleRequestSend.
        destruct (Dashboard.attempt text_length request reply t0 t1)
          as [ error | [response item] ]; [ done | ].
        cbn [Dashboard.requestHistory length]. rewrite length_take. lia.
      * done.
Qed.

(** X13: whatever happens on the page, the request history is the
    items of the sends that got a reply with data, the newest first,
    and of these the first fifty: a failed send and a selection leave
    no trace in it. *)
Theorem history_is_the_newest_fifty (events : list Dashboard.event) :
  Dashboard.requestHistory (Dashboard.run text_length events) =
  take 50 (rev (omap (Dashboard.recorded text_length) events)).
Proof.
  unfold Dashboard.run. rewrite history_after by (cbn; lia).
  by rewrite app_nil_r.
Qed.

(** X14: a reply of the proxy that has no [data], as the ones it sends
    for a request it does not accept, is shown as a network error with
    status 0, and the request is not added to the history. *)
Theorem reply_without_data_is_a_network_error (request responseData : json)
        (startTime endTime : Z) (d : Dashboard.dashboard) :
  field responseData "data" = None ->
  exists message,
    Dashboard.handleRequestSend text_length request
      (Dashboard.Replied responseData) startTime endTime d =
    Dashboard.mkDashboard
      (Some request)
      (Some (JObj [("status", JNum 0);
                   ("statusText", JStr "Network Error");
                   ("headers", JObj []);
                   ("data", JObj [("error", JStr "Request failed");
                                  ("details", JStr message)]);
                   ("responseTime", JNum 0);
                   ("size", JNum 0)]))
      (Dashboard.requestHistory d) false /\
    (responseData <> JNull ->
     message = "Cannot read properties of undefined (reading 'length')").
Proof.
  intros Hdata.
  unfold Dashboard.handleRequestSend, Dashboard.attempt, Dashboard.apiResponse.
  rewrite Hdata. destruct responseData; by eexists.
Qed.

Lemma in_take {A : Type} (n : nat) (l : list A) (x : A) :
  In x (take n l) -> In x l.
Proof.
  revert n. induction l as [ | a l IH ]; intros [ | n ]; cbn; try done.
  intros [-> | Hx]; [ by left | right; by apply (IH n) ].
Qed.

Lemma assoc_assoc_set_eq {A : Type} (k : string) (v : A)
      (l : list (string * A)) :
  assoc k (assoc_set k v l) = Some v.
Proof.
  induction l as [ | [k' w] l IH ]; cbn.
  - by rewrite String.eqb_refl.
  - destruct (String.eqb k k') eqn:Ek; cbn;
      [ by rewrite String.eqb_refl | by rewrite Ek ].
Qed.

Lemma recorded_has_response (e : Dashboard.event) (item : json) :
  Dashboard.recorded text_length e = Some item ->
  exists fields response,
    item = JObj fields /\
    field item "response" = Some (JObj response).
Proof.
  destruct e as [request reply t0 t1 | historyItem]; [ | done ].
  unfold Dashboard.recorded, Dashboard.attempt.
  destruct reply as [error | responseData]; [ done | ].
  unfold Dashboard.apiResponse.
  destruct responseData; try done;
    (destruct (field _ "data"); [ | done ]);
    intros [= <-]; eexists _, _;
    (split; [ reflexivity | ]);
    unfold Dashboard.history_item, field; apply assoc_assoc_set_eq.
Qed.

(** X15: every item of the history has a [response], and when it is
    selected the console sends the whole item as [request], its
    [response] included, next to that response itself. *)
Theorem selected_item_is_sent_whole (events : list Dashboard.event)
        (item : json) (code : string) (d : Dashboard.dashboard) :
  In item (Dashboard.requestHistory (Dashboard.run text_length events)) ->
  Str.trim_is_empty code = false ->
  exists response,
    field item "response" = Some response /\
    Dashboard.console_request code (Dashboard.handleHistorySelect item d) =
    Some (Body (JObj [("code", JStr code);
                      ("context", JObj [("response", response);
                                        ("request", item)])])).
Proof.
  intros Hin Htrim. unfold Dashboard.run in Hin.
  rewrite history_after in Hin by (cbn; lia).
  apply in_take in Hin. rewrite app_nil_r in Hin. apply in_rev in Hin.
  apply list_elem_of_In, list_elem_of_omap in Hin as (e & _ & He).
  destruct (recorded_has_response e item He)
    as (fields & response & -> & Hresponse).
  exists (JObj response). split; [ exact Hresponse | ].
  unfold Dashboard.console_request, Dashboard.handleHistorySelect,
    Console.request_of.
  cbn [Dashboard.activeRequest Dashboard.activeResponse].
  by rewrite Htrim, Hresponse.
Qed.

End DashboardProperties.

Lemma reply_without_data_is_a_network_error_witness :
  exists message,
    Dashboard.handleRequestSend (fun _ => 2) (JObj [("url", JStr "u")])
      (Dashboard.Replied (JObj [("error", JStr "Invalid URL format")]))
      1000 1005 Dashboard.initial =
    Dashboard.mkDashboard
      (Some (JObj [("url", JStr "u")]))
      (Some (JObj [("status", JNum 0);
                   ("statusText", JStr "Network Error");
                   ("headers", JObj []);
                   ("data", JObj [("error", JStr "Request failed");
                                  ("details", JStr message)]);
                   ("responseTime", JNum 0);
                   ("size", JNum 0)]))
      (Dashboard.requestHistory Dashboard.initial) false /\
    (JObj [("error", JStr "Invalid URL format")] <> JNull ->
     message = "Cannot read properties of undefined (reading 'length')").
Proof.
  apply (reply_without_data_is_a_network_error (fun _ => 2)
           (JObj [("url", JStr "u")])
           (JObj [("error", JStr "Invalid URL format")])
           1000 1005 Dashboard.initial).
  reflexivity.
Defined.

Lemma selected_item_is_sent_whole_witness :
  let request := JObj [("url", JStr "u")] in
  let item :=
    JObj [("url", JStr "u");
          ("response", JObj [("status", JNum 200); ("data", JObj []);
                             ("responseTime", JNum 5); ("size", JNum 2)])] in
  exists response,
    field item "response" = Some response /\
    Dashboard.console_request "return 1;"
      (Dashboard.handleHistorySelect item Dashboard.initial) =
    Some (Body (JObj [("code", JStr "return 1;");
                      ("context", JObj [("response", response);
                                        ("request", item)])])).
Proof.
  apply (selected_item_is_sent_whole (fun _ => 2)
           [Dashboard.Send (JObj [("url", JStr "u")])
              (Dashboard.Replied
                 (JObj [("status", JNum 200); ("data", JObj [])]))
              1000 1005]).
  - left. reflexivity.
  - reflexivity.
Defined.

(** ** Which requests are evaluated *)

Lemma safeEval_Done_is_run H text c fuel st r st' :
  safeEval H text c fuel st = Done r st' ->
  refusal text = None /\ exists program, parse H text = Program program.
Proof.
  unfold safeEval, refusal.
  destruct (safeContext c st) as [ ctx st0 | | | ]; try done. cbn [bind].
  destruct (unsafe_keyword text); [ done | ].
  destruct (unsafe_pattern text); [ done | ].
  destruct (parse H text) as [ message | program ]; [ done | ].
  intros _. split; [ done | by exists program ].
Qed.

(** X16: [POST] answers with status 200 only a request whose snippet
    was run: its body has a [code] that passed the three checks, the
    filter let the text through, so that none of the listed words
    occurs in it, and the parser accepted it. *)
Theorem status_200_only_if_run (H : Host) (request : request_body)
        (fuel : nat) (st : state) (resp : response) (st' : state) :
  POST H request fuel st = Done resp st' ->
  status resp = 200 ->
  is_run H request.
Proof.
  intros Hpost Hstatus.
  destruct (POST_Done_cases _ _ _ _ _ _ Hpost)
    as [ b message _ _ _ -> _
       | message t ->
       | b text c st0 result st1 fields -> Hadm _ Hrun _ _ _ ];
    try discriminate Hstatus.
  destruct (safeEval_Done_is_run _ _ _ _ _ _ _ Hrun)
    as (Href & program & Hparse).
  by exists b, text, program.
Qed.

Lemma status_200_only_if_run_witness :
  is_run (Demo.host 3)
         (Demo.request "return response.a + 1;" (JObj [("a", JNum 1)])).
Proof.
  eapply (status_200_only_if_run (Demo.host 3) _ 10 Demo.fresh).
  - reflexivity.
  - reflexivity.
Defined.

Lemma trim_is_empty_false (code : string) :
  Str.trim_is_empty code = false -> code <> "".
Proof. by intros Htrim ->. Qed.

(** X17: of the three bare rejections of [POST], a request the console
    sends can meet only the one for a code of more than 10000
    characters: the console sends no request for a code that is empty
    or white space, and what it sends has the code as a string. *)
Theorem console_request_is_rejected_only_for_length (H : Host)
        (code : string) (response request : option json)
        (req : request_body) (fuel : nat) (st : state) (message : string)
        (st' : state) :
  Console.request_of code response request = Some req ->
  POST H req fuel st = Done (rejection message) st' ->
  message = "Code too long. Maximum 10,000 characters allowed." /\
  10000 < Str.len code.
Proof.
  unfold Console.request_of.
  destruct (Str.trim_is_empty code) eqn:Htrim; [ done | ].
  intros [= <-] Hpost.
  pose proof (trim_is_empty_false code Htrim) as Hne.
  destruct (Z.ltb_spec 10000 (Str.len code)) as [Hlong | Hshort].
  - split; [ | exact Hlong ].
    unfold POST, field in Hpost. cbn [assoc String.eqb Ascii.eqb Bool.eqb]
      in Hpost.
    unfold missing, jtruthy in Hpost.
    destruct (String.eqb_spec code "") as [-> | _]; [ done | ].
    cbn [negb] in Hpost.
    destruct (Z.ltb_spec 10000 (Str.len code)); [ | lia ].
    by injection Hpost as <- _.
  - exfalso.
    set (b := JObj [("code", JStr code);
                    ("context", JObj [("response", Console.or_empty response);
                                      ("request", Console.or_empty request)])])
      in *.
    assert (Hadm : admitted b code).
    { split; [ discriminate | ]. split; [ reflexivity | by split ]. }
    destruct (POST_Done_cases _ _ _ _ _ _ Hpost)
      as [ b' message' [= <-] _ Hnot _ _
         | message' t [=]
         | b' text c st0 result st1 fields _ _ _ _ _ [=] _ ].
    by destruct (Hnot code).
Qed.

Lemma console_request_is_rejected_only_for_length_witness :
  "Code too long. Maximum 10,000 characters allowed." =
    "Code too long. Maximum 10,000 characters allowed." /\
  10000 < Str.len (letters (Z.to_nat 10001)).
Proof.
  eapply (console_request_is_rejected_only_for_length (Demo.host 3)
            (letters (Z.to_nat 10001)) None None _ 10 Demo.fresh).
  - vm_compute. reflexivity.
  - vm_compute. reflexivity.
Defined.

(** ** From the request to the reply and back *)

Lemma size_item (x : json) (items : list json) :
  In x items -> (size x <= list_sum (map size items))%nat.
Proof.
  induction items as [ | i items IH ]; [ done | ].
  cbn [map]. change (list_sum (?a :: ?l)) with (a + list_sum l)%nat.
  intros [-> | Hx]; [ lia | ]. specialize (IH Hx). lia.
Qed.

Lemma size_field (f : string * json) (fields : list (string * json)) :
  In f fields ->
  (size (snd f) <= list_sum (map (fun f => size (snd f)) fields))%nat.
Proof.
  induction fields as [ | g fields IH ]; [ done | ].
  cbn [map]. change (list_sum (?a :: ?l)) with (a + list_sum l)%nat.
  intros [-> | Hf]; [ lia | ]. specialize (IH Hf). lia.
Qed.

Lemma Forall2_functional {A B : Type} (R : A -> B -> Prop)
      (xs : list A) (ys ys' : list B) :
  Forall (fun y => forall x y', R x y -> R x y' -> y = y') ys ->
  Forall2 R xs ys -> Forall2 R xs ys' -> ys = ys'.
Proof.
  intros Hall Hxy. revert ys' Hall.
  induction Hxy as [ | x y xs ys Hxy _ IH ]; intros ys' Hall Hxy';
    inversion Hxy'; subst; [ done | ].
  inversion Hall; subst. f_equal; [ eauto | by apply IH ].
Qed.

(** A value reads as one JSON value at most. *)
Lemma reads_as_functional (n : nat) (h : list obj) (j : json) :
  forall v j', reads_as n h v j -> reads_as n h v j' -> j = j'.
Proof.
  induction j as [ | b | z | s | items IH | fields IH ] using json_induction;
    intros v j' Hr Hr'; inversion Hr; subst; inversion Hr'; subst;
    try reflexivity; try congruence.
  - f_equal. eapply Forall2_functional; [ exact IH | eassumption | ].
    congruence.
  - f_equal.
    eapply (Forall2_functional
              (fun p f => fst p = fst f /\ reads_as n h (snd p) (snd f)));
      [ | eassumption | congruence ].
    eapply Forall_impl; [ exact IH | ].
    intros [k i] Hi [k0 w] [k' i'] [Hk Hw] [Hk' Hw']. cbn in *.
    f_equal; [ congruence | by eapply Hi ].
Qed.

Lemma existsb_eqb_false (l : loc) (seen : list (key * loc)) :
  ~ In l (map snd seen) ->
  existsb (fun e => Nat.eqb l (snd e)) seen = false.
Proof.
  intros Hl.
  destruct (existsb (fun e => Nat.eqb l (snd e)) seen) eqn:Ex; [ | done ].
  apply existsb_exists in Ex as (x & Hx & Heq).
  apply Nat.eqb_eq in Heq as ->. destruct Hl. by apply in_map.
Qed.

(** Properties whose names are in order are written out as listed. *)
Lemma insert_by_index_first {A : Type} (p : string * A) l :
  Forall (fun q => (index_or_zero (fst p) < index_or_zero (fst q))%N) l ->
  insert_by_index p l = p :: l.
Proof.
  destruct 1 as [ | q rest Hq _ ]; [ done | ]. cbn.
  by apply N.ltb_lt in Hq as ->.
Qed.

Lemma Forall_insert_by_index {A : Type} (P : string * A -> Prop) p l :
  P p -> Forall P l -> Forall P (insert_by_index p l).
Proof.
  intros Hp. induction 1 as [ | q rest Hq Hrest IH ]; cbn.
  - by constructor.
  - destruct (_ <? _)%N; repeat constructor; done.
Qed.

Lemma Forall_by_index {A : Type} (P : string * A -> Prop) l :
  Forall P l -> Forall P (by_index l).
Proof.
  induction 1 as [ | q rest Hq _ IH ]; cbn; [ constructor | ].
  by apply Forall_insert_by_index.
Qed.

Lemma own_order_ordered {A : Type} (l : list (string * A)) :
  ordered_keys (map fst l) = true -> own_order l = l.
Proof.
  induction l as [ | [k a] rest IH ]; [ done | ].
  cbn [map fst ordered_keys]. intros [Hk Hrest]%andb_prop.
  specialize (IH Hrest). unfold own_order in *. cbn [List.filter fst].
  destruct (array_index k) as [n | ] eqn:Ek.
  - assert (Hi : is_index k = true) by (unfold is_index; by rewrite Ek).
    rewrite Hi. cbn [negb by_index fold_right].
    change (fold_right insert_by_index [] ?x) with (by_index x).
    rewrite insert_by_index_first; [ cbn [app]; by rewrite IH | ].
    apply Forall_by_index, List.Forall_forall. intros [k' a'] Hin.
    apply filter_In in Hin as [Hin Hidx]. cbn [fst] in *.
    unfold index_or_zero. rewrite Ek.
    rewrite forallb_forall in Hk.
    specialize (Hk k' (in_map fst _ _ Hin)). cbn [fst] in Hk.
    unfold is_index in Hidx.
    destruct (array_index k'); [ by apply N.ltb_lt | done ].
  - assert (Hi : is_index k = false) by (unfold is_index; by rewrite Ek).
    rewrite Hi. cbn [negb]. rewrite forallb_forall in Hk.
    assert (Hnone : forall p, In p rest -> is_index (fst p) = false).
    { intros p Hp. specialize (Hk (fst p) (in_map fst _ _ Hp)).
      by destruct (is_index (fst p)). }
    assert (Hidx : List.filter (fun p => is_index (fst p)) rest = []).
    { clear -Hnone. induction rest as [ | p rest IH ]; [ done | ]. cbn.
      rewrite (Hnone p (or_introl eq_refl)). apply IH.
      intros q Hq. apply Hnone. by right. }
    assert (Hoth : List.filter (fun p => negb (is_index (fst p))) rest
                   = rest).
    { clear -Hnone. induction rest as [ | p rest IH ]; [ done | ]. cbn.
      rewrite (Hnone p (or_introl eq_refl)). cbn. f_equal. apply IH.
      intros q Hq. apply Hnone. by right. }
    by rewrite Hidx, Hoth.
Qed.

Lemma Forall2_keys n h props (fields : list (string * json)) :
  Forall2 (fun p f => fst p = fst f /\ reads_as n h (snd p) (snd f))
          props fields ->
  map fst props = map fst fields.
Proof.
  induction 1 as [ | p f ps fs [Hk _] _ IH ]; [ done | ].
  cbn. by rewrite Hk, IH.
Qed.

(** A value parsed from JSON is no function: a property [toJSON] that
    is one is not called. *)
Lemma reads_as_toJSON n h props (fields : list (string * json)) k :
  Forall2 (fun p f => fst p = fst f /\ reads_as n h (snd p) (snd f))
          props fields ->
  toJSON (OObj props) k = None.
Proof.
  unfold toJSON. cbn [own_props]. intros Hall.
  pose proof (reads_as_assoc n h "toJSON" _ _ Hall) as Hassoc.
  destruct (assoc "toJSON" fields) as [j | ].
  - destruct Hassoc as (v & -> & Hv). by destruct Hv.
  - by rewrite Hassoc.
Qed.

(** [JSON.stringify] gives back the JSON a value reads as: the objects
    being written out around it are larger than it, so that it is none
    of them. *)
Lemma serialize_reads_as (n : nat) (h : list obj) (r : nat) (j : json) :
  forall v seen fuel k,
    reads_as n h v j ->
    as_parsed j = true ->
    (size j <= fuel)%nat ->
    (forall l, In l (map snd seen) ->
               exists j', reads_as n h (VRef l) j' /\ (size j < size j')%nat) ->
    serialize fuel (mkState h r) seen k v = Json j.
Proof.
  induction j as [ | b | z | s | items IH | fields IH ] using json_induction;
    intros v seen fuel k Hr Hparsed Hfuel Hseen;
    (destruct fuel as [ | fuel ]; [ cbn in Hfuel; lia | ]);
    inversion Hr as [ | | | | l vs items' Hn Hl Hitems
                        | l props fields' Hn Hl Hfields ]; subst;
    try reflexivity.
  - cbn [serialize heap]. unfold loc in *. rewrite Hl.
    cbn [toJSON own_props assoc]. rewrite existsb_eqb_false.
    2: { intros Hin. destruct (Hseen l Hin) as (j' & Hj' & Hlt).
         rewrite (reads_as_functional _ _ _ _ _ Hj' Hr) in Hlt. lia. }
    assert (Hall : forall x, In x items ->
                     as_parsed x = true /\
                     (size x <= fuel)%nat /\
                     forall l', In l' (map snd ((k, l) :: seen)) ->
                       exists j', reads_as n h (VRef l') j' /\
                                  (size x < size j')%nat).
    { intros x Hx. pose proof (size_item x items Hx) as Hsize.
      cbn [size] in Hfuel. cbn [as_parsed] in Hparsed.
      rewrite forallb_forall in Hparsed.
      split; [ by apply Hparsed | ]. split; [ lia | ].
      intros l' [<- | Hin].
      - exists (JArr items). split; [ exact Hr | cbn [size]; lia ].
      - destruct (Hseen l' Hin) as (j' & Hj' & Hlt). exists j'.
        split; [ exact Hj' | ]. cbn [size] in Hlt. lia. }
    clear Hr Hl Hfuel Hseen Hparsed. unfold ser_items. generalize 0%nat.
    induction Hitems as [ | w i ws js Hwi _ IHws ]; intros ix; [ done | ].
    inversion IH as [ | ? ? Hi Hrest ]; subst. cbn [ser_items_from].
    destruct (Hall i (or_introl eq_refl)) as (Hp & Hle & Hsn).
    rewrite (Hi w ((k, l) :: seen) fuel (KIndex ix) Hwi Hp Hle Hsn).
    specialize (IHws Hrest (fun x Hx => Hall x (or_intror Hx)) (S ix)).
    destruct (ser_items_from _ (S ix) ws) as [ js' | | | | ]; try done.
    by injection IHws as ->.
  - cbn [serialize heap]. unfold loc in *. rewrite Hl.
    rewrite (reads_as_toJSON _ _ _ _ k Hfields).
    rewrite existsb_eqb_false.
    2: { intros Hin. destruct (Hseen l Hin) as (j' & Hj' & Hlt).
         rewrite (reads_as_functional _ _ _ _ _ Hj' Hr) in Hlt. lia. }
    cbn [as_parsed] in Hparsed.
    apply andb_prop in Hparsed as [ [_ Hord]%andb_prop Hparsed ].
    rewrite own_order_ordered
      by (by rewrite (Forall2_keys _ _ _ _ Hfields)).
    assert (Hall : forall f, In f fields ->
                     as_parsed (snd f) = true /\
                     (size (snd f) <= fuel)%nat /\
                     forall l', In l' (map snd ((k, l) :: seen)) ->
                       exists j', reads_as n h (VRef l') j' /\
                                  (size (snd f) < size j')%nat).
    { intros f Hf. pose proof (size_field f fields Hf) as Hsize.
      cbn [size] in Hfuel. rewrite forallb_forall in Hparsed.
      split; [ by apply Hparsed | ]. split; [ lia | ].
      intros l' [<- | Hin].
      - exists (JObj fields). split; [ exact Hr | cbn [size]; lia ].
      - destruct (Hseen l' Hin) as (j' & Hj' & Hlt). exists j'.
        split; [ exact Hj' | ]. cbn [size] in Hlt. lia. }
    clear Hr Hl Hfuel Hseen Hparsed Hord.
    induction Hfields as [ | [k0 w] [k' i] ps fs [Hk Hwi] _ IHps ]; [ done | ].
    cbn in Hk, Hwi. subst k'.
    inversion IH as [ | ? ? Hi Hrest ]; subst. cbn [ser_props].
    destruct (Hall (k0, i) (or_introl eq_refl)) as (Hp & Hle & Hsn).
    cbn [snd] in Hi, Hp, Hle, Hsn.
    rewrite (Hi w ((k, l) :: seen) fuel (KProp k0) Hwi Hp Hle Hsn).
    specialize (IHps Hrest (fun x Hx => Hall x (or_intror Hx))).
    destruct (ser_props _ ps) as [ js' | | | | ]; try done.
    by injection IHps as ->.
Qed.

(** X18: a snippet that returns [response] gets back, as the [result]
    of the reply, the very JSON value [request.json()] gave as
    [context.response], whatever its shape and depth, when that is
    truthy: placing it in the heap and writing it out again loses and
    adds nothing.  The value is one with integers a double holds
    exactly, with the names of each object distinct and in the order
    the engine keeps them in, and nested less than a thousand deep,
    which [JSON.stringify] follows without exhausting the stack. *)
Theorem returned_response_is_echoed (H : Host) (b : json) (text : string)
        (context j : json) (rest : list stmt) (fuel : nat) (st : state) :
  admitted b text ->
  refusal text = None ->
  parse H text = Program (SReturn (Some (EVar "response")) :: rest) ->
  field b "context" = Some context ->
  field context "response" = Some j ->
  jtruthy j = true ->
  as_parsed j = true ->
  (depth j < 1000)%nat ->
  (size j + 3 <= fuel)%nat ->
  exists st',
    POST H (Body b) fuel st =
    Done (mkResponse 200
            (JObj [("result", j); ("console", JArr []);
                   ("success", JBool true);
                   ("executionTime",
                    JNum (now H (S (reads st)) - now H (reads st)));
                   ("timestamp", JNum (now H (S (S (reads st)))))]))
         st'.
Proof.
  intros Hadm Href Hparse Hcontext Hj Htruthy Hparsed _ Hfuel.
  rewrite (POST_admitted H b text fuel st Hadm).
  destruct (context_or_empty (field b "context") (tick st)) as [c st0] eqn:Ec.
  destruct (context_or_empty_spec _ _ _ _ Ec) as (_ & Hreads & Hr & Ht).
  destruct (refusal_None _ Href) as [Hk Hp].
  destruct (safeEval_admitted H text _ c _ fuel st0 _ Hr Ht Hk Hp Hparse)
    as (response & request & ext & Hresponse & _ & ->).
  rewrite Hcontext in Hresponse.
  destruct context as [ | | | | | fields ]; try discriminate Hj.
  cbn [context_json jtruthy] in Hresponse. unfold binds in Hresponse.
  rewrite Hj, Htruthy in Hresponse.
  apply (reads_as_extend _ _ (ext ++ [captured_console; OArr []]))
    in Hresponse.
  rewrite app_assoc in Hresponse.
  assert (Hsize : (1 <= size j)%nat) by (destruct j; cbn; lia).
  destruct fuel as [ | [ | [ | fuel ] ] ]; try lia.
  pose proof (serialize_reads_as _ _ (S (S (S (reads st)))) j response []
                (S (S (S fuel))) (KProp "result") Hresponse Hparsed
                ltac:(lia) ltac:(by intros l [])) as Hser.
  unfold run_snippet. cbn [exec_list exec eval bind]. unfold resolve.
  cbn [snippet_scope wrapper_scope declarations parameters bindings map
       lookup_scope assoc fst snd String.eqb Ascii.eqb Bool.eqb reported bind].
  unfold json_response.
  cbn [assoc_set String.eqb Ascii.eqb Bool.eqb ser_props tick heap reads].
  rewrite Hreads. unfold tick. cbn [heap reads]. rewrite Hser.
  cbn [serialize heap]. rewrite lookup_1. cbn. by eexists.
Qed.

Lemma returned_response_is_echoed_witness :
  let j := JObj [("a", JArr [JNum 1; JObj [("b", JNull)]])] in
  exists st',
    POST (Demo.host 3) (Demo.request "return response;" j) 10 Demo.fresh =
    Done (mkResponse 200
            (JObj [("result", j); ("console", JArr []);
                   ("success", JBool true);
                   ("executionTime",
                    JNum (now (Demo.host 3) (S (reads Demo.fresh))
                          - now (Demo.host 3) (reads Demo.fresh)));
                   ("timestamp",
                    JNum (now (Demo.host 3) (S (S (reads Demo.fresh)))))]))
         st'.
Proof.
  apply (returned_response_is_echoed (Demo.host 3) _ "return response;"
           (JObj [("response",
                   JObj [("a", JArr [JNum 1; JObj [("b", JNull)]])])])
           (JObj [("a", JArr [JNum 1; JObj [("b", JNull)]])]) []).
  - repeat split; [ discriminate | discriminate | vm_compute; discriminate ].
  - reflexivity.
  - reflexivity.
  - reflexivity.
  - reflexivity.
  - reflexivity.
  - reflexivity.
  - cbn. lia.
  - cbn. lia.
Defined.

(** Without that condition the value can come back changed: a name
    that is an array index is written out before the others. *)
Lemma names_can_be_reordered :
  exists st',
    POST (Demo.host 3)
         (Demo.request "return response;"
            (JObj [("b", JNum 1); ("1", JNum 2)]))
         10 Demo.fresh =
    Done (mkResponse 200
            (JObj [("result", JObj [("1", JNum 2); ("b", JNum 1)]);
                   ("console", JArr []); ("success", JBool true);
                   ("executionTime", JNum 1); ("timestamp", JNum 1002)]))
         st'.
Proof. eexists. vm_compute. reflexivity. Qed.
